(** * SMGA: genre-distribution analysis of an audio library

    A shallow embedding of [SMGA.py] (the STS plugin "SMGA") and the
    properties of its analysis core: file discovery, genre tag
    extraction, genre simplification, distribution and overlap.

    Modelling conventions.
    - A Python [str] whose code points are all below 256 is a Rocq
      [string], one character per code point.  The [str] methods the
      plugin calls are written out below from the Unicode tables for
      these code points: [lower], [strip], [split] and [in] are exact
      for every such string; [title] is exact except at the three
      letters whose upper case is not below 256 (micro sign, sharp s,
      y with diaeresis), which it leaves as they are.  Text with code
      points from 256 on is outside the model.
    - A Python [float] is the rational number it stands for; [double]
      rounds a rational to the nearest binary64 number.
    - Python values of mixed type (the elements of the list that
      [calculate_genre_distribution] builds) are the type [pyval].
    - An exception is a value of [exn]; a call that may raise returns
      a [result].
    - Dictionaries whose iteration order matters (the taxonomy, a
      [Counter]) are association lists in insertion order.
    - The file system, mutagen and the JSON parser are the environment:
      their outcomes are inputs of the model. *)

From Stdlib Require Import List String Ascii Bool Arith ZArith QArith Lia.
From Stdlib Require Import Qpower Qround Lqa.
From Stdlib Require Import Permutation Sorted DecimalString.
Import ListNotations.

Local Close Scope Q_scope.
Local Open Scope string_scope.
Local Open Scope list_scope.
Local Open Scope nat_scope.

(* ------------------------------------------------------------------ *)
(** ** Python [str] methods (code points below 256) *)

Module PyStr.

Definition code (c : ascii) : nat := nat_of_ascii c.

Definition between (lo hi : nat) (c : ascii) : bool :=
  (lo <=? code c) && (code c <=? hi).

(** The upper-case letters: A-Z, and the accented capitals 0xC0-0xDE
    without the multiplication sign 0xD7. *)
Definition isupper (c : ascii) : bool :=
  between 65 90 c || between 192 214 c || between 216 222 c.

(** The lower-case letters that have an upper case below 256: a-z, and
    the accented small letters 0xE0-0xFE without the division sign
    0xF7. *)
Definition has_upper (c : ascii) : bool :=
  between 97 122 c || between 224 246 c || between 248 254 c.

(** The lower-case letters: those above, the sharp s 0xDF, y with
    diaeresis 0xFF, the micro sign 0xB5 and the ordinal indicators 0xAA
    and 0xBA. *)
Definition islower (c : ascii) : bool :=
  has_upper c || (code c =? 223) || (code c =? 255) || (code c =? 181)
  || (code c =? 170) || (code c =? 186).

Definition iscased (c : ascii) : bool := isupper c || islower c.

(** [str.isspace] on one character: TAB, LF, VT, FF, CR, the four
    separators 0x1c-0x1f, the space, NEL 0x85 and the no-break space
    0xA0. *)
Definition isspace (c : ascii) : bool :=
  between 9 13 c || between 28 31 c || (code c =? 32)
  || (code c =? 133) || (code c =? 160).

Definition tolower (c : ascii) : ascii :=
  if isupper c then ascii_of_nat (code c + 32) else c.

Definition toupper (c : ascii) : ascii :=
  if has_upper c then ascii_of_nat (code c - 32) else c.

(** [s.lower()] *)
Fixpoint lower (s : string) : string :=
  match s with
  | EmptyString => EmptyString
  | String c s' => String (tolower c) (lower s')
  end.

Fixpoint lstrip (s : string) : string :=
  match s with
  | EmptyString => EmptyString
  | String c s' => if isspace c then lstrip s' else s
  end.

Fixpoint rstrip (s : string) : string :=
  match s with
  | EmptyString => EmptyString
  | String c s' =>
      match rstrip s' with
      | EmptyString => if isspace c then EmptyString else String c EmptyString
      | r => String c r
      end
  end.

(** [s.strip()] *)
Definition strip (s : string) : string := rstrip (lstrip s).

(** [s.title()]: a cased character that follows a cased character is
    lower-cased, any other character is upper-cased. *)
Fixpoint title_from (previous_is_cased : bool) (s : string) : string :=
  match s with
  | EmptyString => EmptyString
  | String c s' =>
      String (if previous_is_cased then tolower c else toupper c)
             (title_from (iscased c) s')
  end.

Definition title (s : string) : string := title_from false s.

(** [s.split(sep)] for a one-character separator: never returns the
    empty list, and keeps empty pieces. *)
Fixpoint split (sep : ascii) (s : string) : list string :=
  match s with
  | EmptyString => [EmptyString]
  | String c s' =>
      if Ascii.eqb c sep then EmptyString :: split sep s'
      else match split sep s' with
           | piece :: rest => String c piece :: rest
           | [] => [String c EmptyString]
           end
  end.

(** [sub in s]: [sub] occurs in [s] as a contiguous substring. *)
Fixpoint contains (sub s : string) : bool :=
  if prefix sub s then true
  else match s with
       | EmptyString => false
       | String _ s' => contains sub s'
       end.

Definition startswith (c : ascii) (s : string) : bool :=
  match s with
  | String a _ => Ascii.eqb a c
  | EmptyString => false
  end.

Fixpoint endswith (c : ascii) (s : string) : bool :=
  match s with
  | EmptyString => false
  | String a EmptyString => Ascii.eqb a c
  | String _ s' => endswith c s'
  end.

(** The part of [s] after the last occurrence of [c], when [c] occurs:
    [s[s.rfind(c)+1:]]. *)
Fixpoint after_last (c : ascii) (s : string) : option string :=
  match s with
  | EmptyString => None
  | String a s' =>
      match after_last c s' with
      | Some r => Some r
      | None => if Ascii.eqb a c then Some s' else None
      end
  end.

(** Truth value of a [str]: only the empty string is false. *)
Definition truthy (s : string) : bool :=
  match s with
  | EmptyString => false
  | String _ _ => true
  end.

End PyStr.

(* ------------------------------------------------------------------ *)
(** ** [os.path] (POSIX) and [os.walk] *)

Module OsPath.

Definition sep : ascii := "/"%char.
Definition extsep : ascii := "."%char.

Definition basename (p : string) : string :=
  match PyStr.after_last sep p with
  | Some b => b
  | None => p
  end.

Fixpoint skip_leading_dots (s : string) : string :=
  match s with
  | String c s' => if Ascii.eqb c extsep then skip_leading_dots s' else s
  | EmptyString => EmptyString
  end.

(** The extension [os.path.splitext(p)[1]]: the text from the last dot
    of the last path component on, unless only dots precede that dot
    in the component. *)
Definition ext (p : string) : string :=
  match PyStr.after_last extsep (skip_leading_dots (basename p)) with
  | Some e => String extsep e
  | None => EmptyString
  end.

(** [os.path.splitext(p)] *)
Definition splitext (p : string) : string * string :=
  (substring 0 (String.length p - String.length (ext p)) p, ext p).

(** [os.path.join(a, b)] *)
Definition join (a b : string) : string :=
  if PyStr.startswith sep b then b
  else if negb (PyStr.truthy a) || PyStr.endswith sep a then a ++ b
  else a ++ String sep b.

End OsPath.

(** A directory: its name in its parent, the names of its files and
    its subdirectories. *)
#[warnings="-register-all"]
Inductive tree : Type :=
| Dir (name : string) (files : list string) (subdirs : list tree).

Definition dirname (t : tree) : string :=
  match t with Dir name _ _ => name end.

(** [os.walk(top)], top-down: the triple of the directory at path
    [top], then the triples of its subdirectories in order. *)
Fixpoint os_walk (top : string) (t : tree)
  : list (string * list string * list string) :=
  match t with
  | Dir _ files subdirs =>
      (top, map dirname subdirs, files)
      :: flat_map (fun sub => os_walk (OsPath.join top (dirname sub)) sub)
                  subdirs
  end.

(* ------------------------------------------------------------------ *)
(** ** Exceptions and results *)

Inductive exn : Type :=
| FileNotFoundError (msg : string)
| JSONDecodeError (msg : string)
| TypeError
| IndexError
| KeyError (key : string)
| OSError (msg : string)
| AttributeError (msg : string)
| ValueError (msg : string).

(** [str(e)] *)
Definition exn_str (e : exn) : string :=
  match e with
  | FileNotFoundError msg => msg
  | JSONDecodeError msg => msg
  | TypeError => "TypeError"
  | IndexError => "list index out of range"
  | KeyError key => key
  | OSError msg => msg
  | AttributeError msg => msg
  | ValueError msg => msg
  end.

Inductive result (A : Type) : Type :=
| Ok (a : A)
| Raise (e : exn).
Arguments Ok {A} a.
Arguments Raise {A} e.

Definition bind {A B : Type} (r : result A) (k : A -> result B) : result B :=
  match r with
  | Ok a => k a
  | Raise e => Raise e
  end.

Notation "x <- r ;; k" := (bind r (fun x => k))
  (at level 61, r at next level, right associativity).

(** [try: r  except Exception: pass] followed by [return d]. *)
Definition try_except_pass {A : Type} (r : result (option A)) (d : A) : A :=
  match r with
  | Ok (Some a) => a
  | Ok None => d
  | Raise _ => d
  end.

(* ------------------------------------------------------------------ *)
(** ** mutagen *)

(** The value stored under a tag key: a list (each item given by its
    [str()]) or any other object (given by its [str()]). *)
Inductive tag_value : Type :=
| TagList (items : list string)
| TagOther (text : string).

Definition Tags : Type := list (string * tag_value).

(** A [mutagen.FileType]; its [tags] attribute may be [None]. *)
Record FileType : Type := { tags : option Tags }.

(** [audio.keys()] *)
Definition keys (audio : FileType) : list string :=
  match tags audio with
  | None => []
  | Some t => map fst t
  end.

(** Truth value of a [FileType]: it has at least one tag key. *)
Definition audio_truthy (audio : FileType) : bool :=
  negb (List.length (keys audio) =? 0).

Fixpoint tags_get (t : Tags) (key : string) : option tag_value :=
  match t with
  | [] => None
  | (k, v) :: t' => if String.eqb k key then Some v else tags_get t' key
  end.

(** [tag in audio.tags] *)
Definition tags_contains (t : option Tags) (key : string) : result bool :=
  match t with
  | None => Raise TypeError
  | Some t => Ok (match tags_get t key with Some _ => true | None => false end)
  end.

(** [audio.tags[tag]] *)
Definition tags_getitem (t : option Tags) (key : string) : result tag_value :=
  match t with
  | None => Raise TypeError
  | Some t => match tags_get t key with
              | Some v => Ok v
              | None => Raise (KeyError key)
              end
  end.

(* ------------------------------------------------------------------ *)
(** ** Python [float]: binary64 numbers *)

Module Float.

Local Open Scope Q_scope.

(** [2 ^ e] for an integer exponent. *)
Definition pow2 (e : Z) : Q := Qpower 2 e.

(** The exponent [k] with [2 ^ k <= x < 2 ^ (k + 1)], for [0 < x]. *)
Definition floor_log2 (x : Q) : Z :=
  let k := (Z.log2 (Qnum x) - Z.log2 (Zpos (Qden x)))%Z in
  if Qle_bool (pow2 k) x then k else (k - 1)%Z.

(** The integer nearest to [y], the even one of the two if [y] lies
    halfway between them. *)
Definition nearest_int (y : Q) : Z :=
  let q := Qfloor y in
  match Qcompare (y - inject_Z q) (1 # 2) with
  | Lt => q
  | Gt => (q + 1)%Z
  | Eq => if Z.even q then q else (q + 1)%Z
  end.

(** The nearest number with a significand of 53 bits, for [0 < x]. *)
Definition nearest (x : Q) : Q :=
  let e := (floor_log2 x - 52)%Z in
  inject_Z (nearest_int (x / pow2 e)) * pow2 e.

(** The binary64 number that a correctly rounded operation returns for
    the exact result [x]: the nearest one, ties to even; a number that
    is one already is returned as it is.  Exponents are not bounded:
    the quotients and products of the plugin are far from the overflow
    and underflow thresholds. *)
Definition double (x : Q) : Q :=
  let r := match Qnum x with
           | Z0 => 0
           | Zpos _ => nearest x
           | Zneg _ => - nearest (- x)
           end in
  if Qeq_bool r x then x else r.

(** The unit roundoff of binary64. *)
Definition u : Q := 1 # (2 ^ 53).

End Float.

(* ------------------------------------------------------------------ *)
(** ** The plugin: [SMGA.py] *)

(** The taxonomy read from [simplified_genre.json]: simplified genre
    name to keywords, in the order of the file. *)
Definition Taxonomy : Type := list (string * list string).

(** What the file system and the JSON parser answer for the taxonomy
    file: whether the path exists, and the outcome of opening and
    parsing it. *)
Record ConfigEnv : Type := {
  path_exists : bool;
  json_load : result Taxonomy
}.

Definition load_simplified_genres (plugin_dir : string) (env : ConfigEnv)
  : result Taxonomy :=
  let genre_file_path := OsPath.join plugin_dir "simplified_genre.json" in
  if negb (path_exists env) then
    Raise (FileNotFoundError
             ("Simplified genre file not found: " ++ genre_file_path)%string)
  else json_load env.

Definition audio_extensions : list string :=
  [".mp3"; ".flac"; ".wav"; ".aac"; ".m4a"; ".ogg"; ".wma"].

(** [os.path.splitext(file)[1].lower() in audio_extensions] *)
Definition has_audio_extension (file : string) : bool :=
  existsb (String.eqb (PyStr.lower (snd (OsPath.splitext file))))
          audio_extensions.

Definition get_audio_files (directory : string) (t : tree) : list string :=
  fold_left
    (fun audio_files '(root, _, files) =>
       fold_left
         (fun audio_files file =>
            if has_audio_extension file
            then audio_files ++ [OsPath.join root file]
            else audio_files)
         files audio_files)
    (os_walk directory t) [].

Section Analysis.

(** [mutagen.File]: raises, returns [None] for a file it cannot
    identify, or returns the opened file. *)
Variable File : string -> result (option FileType).

(** The [for tag in ...] loop of [get_genre]: [Ok None] when the loop
    ends without returning. *)
Fixpoint get_genre_loop (audio : FileType) (tag_keys : list string)
  : result (option (list string)) :=
  match tag_keys with
  | [] => Ok None
  | tag :: rest =>
      present <- tags_contains (tags audio) tag ;;
      if (present : bool) then
        genre <- tags_getitem (tags audio) tag ;;
        genre <- match genre with
                 | TagList [] => Raise IndexError
                 | TagList (first :: _) => Ok first
                 | TagOther text => Ok text
                 end ;;
        Ok (Some (map (fun g => PyStr.lower (PyStr.strip g))
                      (PyStr.split ";" genre)))
      else get_genre_loop audio rest
  end.

Definition get_genre (file_path : string) : list string :=
  try_except_pass
    (audio <- File file_path ;;
     match audio with
     | Some audio =>
         if audio_truthy audio
         then get_genre_loop audio ["genre"; "GENRE"; "TCON"]
         else Ok None
     | None => Ok None
     end)
    [].

(** The inner [for ... in simplified_keywords.items()] loop: the first
    entry one of whose keywords occurs in [genre_lower]. *)
Fixpoint find_match (simplified_keywords : Taxonomy) (genre_lower : string)
  : option string :=
  match simplified_keywords with
  | [] => None
  | (simplified_genre, keywords) :: rest =>
      if existsb (fun keyword => PyStr.contains keyword genre_lower) keywords
      then Some simplified_genre
      else find_match rest genre_lower
  end.

(** One iteration of the outer loop of [map_to_simplified_genres];
    [if matched:] is false for [None] and for the empty string. *)
Definition simplify_step (simplified_keywords : Taxonomy)
    (state : list string * nat) (genre : string) : list string * nat :=
  let '(simplified_genres, unmapped_count) := state in
  let genre_lower := PyStr.strip (PyStr.lower genre) in
  let matched := find_match simplified_keywords genre_lower in
  match matched with
  | Some m =>
      if PyStr.truthy m
      then (simplified_genres ++ [m], unmapped_count)
      else (simplified_genres ++ [PyStr.title genre], unmapped_count + 1)
  | None => (simplified_genres ++ [PyStr.title genre], unmapped_count + 1)
  end.

Definition map_to_simplified_genres (complex_genres : list string)
    (simplified_keywords : Taxonomy) : list string * nat :=
  fold_left (simplify_step simplified_keywords) complex_genres ([], 0).

(** A Python value as it occurs in the list [genres] of
    [calculate_genre_distribution]. *)
Inductive pyval : Type :=
| PStr (s : string)
| PInt (n : Z)
| PList (l : list string).

Definition pyval_eqb (a b : pyval) : bool :=
  match a, b with
  | PStr s, PStr s' => String.eqb s s'
  | PInt n, PInt n' => Z.eqb n n'
  | PList l, PList l' =>
      if list_eq_dec string_dec l l' then true else false
  | _, _ => false
  end.

(** [hash(v)] raises [TypeError] for a list. *)
Definition hashable (v : pyval) : bool :=
  match v with
  | PList _ => false
  | _ => true
  end.

(** A [Counter] (and any [dict]): keys with their values, in insertion
    order. *)
Definition Counter_t : Type := list (pyval * nat).

(** [counter[elem] = counter.get(elem, 0) + 1] *)
Fixpoint counter_incr (elem : pyval) (c : Counter_t) : Counter_t :=
  match c with
  | [] => [(elem, 1)]
  | (k, n) :: c' =>
      if pyval_eqb k elem then (k, n + 1) :: c'
      else (k, n) :: counter_incr elem c'
  end.

(** [Counter(iterable)] *)
Definition Counter (iterable : list pyval) : result Counter_t :=
  fold_left
    (fun acc elem =>
       c <- acc ;;
       if hashable elem then Ok (counter_incr elem c) else Raise TypeError)
    iterable (Ok []).

(** [(count / total_tracks) * 100]: the quotient of the two integers
    rounded to a [float], and its product with 100 rounded again. *)
Definition percentage (count total_tracks : nat) : Q :=
  Float.double
    (Float.double (inject_Z (Z.of_nat count) / inject_Z (Z.of_nat total_tracks))
     * inject_Z 100)%Q.

(** [{genre: (count / total_tracks) * 100 for genre, count in
    genre_count.items()}] *)
Definition percentages (genre_count : Counter_t) (total_tracks : nat)
  : list (pyval * Q) :=
  map (fun '(genre, count) => (genre, percentage count total_tracks))
      genre_count.

(** What [calculate_genre_distribution] returns: a tuple of three or
    of two components. *)
Inductive distribution : Type :=
| Tuple3 (genre_count : Counter_t) (genre_percentage : list (pyval * Q))
         (total : nat)
| Tuple2 (genre_count : Counter_t) (genre_percentage : list (pyval * Q)).

(** One iteration of the loop of [calculate_genre_distribution]:
    [genres.extend(genre_list)], where [genre_list] is the tuple that
    [map_to_simplified_genres] returns when [use_simple_genres]. *)
Definition extend_step (use_simple_genres : bool)
    (simplified_keywords : Taxonomy) (genres : list pyval) (file : string)
  : list pyval :=
  let genre_list := get_genre file in
  if use_simple_genres then
    let genre_list := map_to_simplified_genres genre_list simplified_keywords in
    genres ++ [PList (fst genre_list); PInt (Z.of_nat (snd genre_list))]
  else genres ++ map PStr genre_list.

Definition calculate_genre_distribution (audio_files : list string)
    (use_simple_genres : bool) (simplified_keywords : Taxonomy)
  : result distribution :=
  let genres :=
    fold_left (extend_step use_simple_genres simplified_keywords)
              audio_files [] in
  genre_count <- Counter genres ;;
  let total_tracks := List.length genres in
  if total_tracks =? 0 then Ok (Tuple3 genre_count [] 0)
  else Ok (Tuple2 genre_count (percentages genre_count total_tracks)).

Definition calculate_overlap (audio_files : list string) : nat :=
  fold_left
    (fun overlap_count file =>
       let genres := get_genre file in
       if 1 <? List.length genres then overlap_count + 1 else overlap_count)
    audio_files 0.

(** What [perform_analysis] computes between the discovery of the
    files and the log lines. *)
Record Analysis : Type := {
  genre_count : Counter_t;
  genre_percentage : list (pyval * Q);
  total_tracks : nat;
  overlap_count : nat;
  unmapped_count : nat
}.

(** The analysis proper of [perform_analysis] (the statements from
    [genres = ...] to [display_results(...)]), for a non-empty list of
    discovered files. *)
Definition perform_analysis (audio_files : list string)
    (use_simple_genres : bool) (simplified_keywords : Taxonomy)
  : result Analysis :=
  let genres := flat_map get_genre audio_files in
  let '(genres, unmapped_count) :=
    if use_simple_genres
    then map_to_simplified_genres genres simplified_keywords
    else (genres, 0) in
  genre_count <- Counter (map PStr genres) ;;
  let total_tracks := List.length genres in
  let overlap_count := calculate_overlap audio_files in
  Ok {| genre_count := genre_count;
        genre_percentage := percentages genre_count total_tracks;
        total_tracks := total_tracks;
        overlap_count := overlap_count;
        unmapped_count := unmapped_count |}.

End Analysis.

(** What the host observes of a call: log lines and message boxes. *)
Inductive event : Type :=
| LogInfo (msg : string)
| LogWarning (msg : string)
| LogError (msg : string)
| MessageBoxCritical (title text : string).

Section Main.

(** The widget type and [smga_main_logic], which builds the user
    interface: it returns the plugin widget or [None]. *)
Variable Widget : Type.
Variable smga_main_logic : Taxonomy -> list event * result (option Widget).

Definition main (plugin_dir : string) (env : ConfigEnv)
  : list event * result (option Widget) :=
  let log := [LogInfo "SMGA Plugin initialized."] in
  match load_simplified_genres plugin_dir env with
  | Ok simplified_keywords =>
      let '(log', r) := smga_main_logic simplified_keywords in
      (log ++ log', r)
  | Raise (FileNotFoundError msg as e) =>
      (log ++ [LogError (exn_str e); MessageBoxCritical "Error" (exn_str e)],
       Ok None)
  | Raise e => (log, Raise e)
  end.

End Main.

(* ------------------------------------------------------------------ *)
(** ** A small library, used for the examples *)

Module Example.

Definition taxonomy : Taxonomy :=
  [("rock", ["rock"]); ("electronic", ["techno"; "house"])].

Definition tagged (key genre : string) : result (option FileType) :=
  Ok (Some {| tags := Some [(key, TagList [genre])] |}).

(** File A is tagged "Classic Rock", file B "Deep House", file C has no
    tag; D carries two genres in an ID3 text frame, E a genre the
    taxonomy does not know, F an empty list; any other path cannot be
    opened. *)
Definition File (path : string) : result (option FileType) :=
  if String.eqb path "/music/A.mp3" then tagged "genre" "Classic Rock"
  else if String.eqb path "/music/B.flac" then tagged "GENRE" "Deep House"
  else if String.eqb path "/music/C.ogg" then Ok (Some {| tags := None |})
  else if String.eqb path "/music/D.mp3" then
    Ok (Some {| tags := Some [("TIT2", TagOther "Song");
                              ("TCON", TagOther " Rock; Pop ")] |})
  else if String.eqb path "/music/E.mp3" then tagged "genre" "bossa nova"
  else if String.eqb path "/music/F.mp3" then
    Ok (Some {| tags := Some [("genre", TagList [])] |})
  else if String.eqb path "/music/notes.txt" then Ok None
  else Raise (OSError "No such file or directory").

Definition files : list string :=
  ["/music/A.mp3"; "/music/B.flac"; "/music/C.ogg"].

Definition music : tree :=
  Dir "music" ["A.mp3"; "notes.txt"; ".mp3"; "cover.jpg"]
      [Dir "live" ["B.FLAC"; "c.Ogg"; "d.mp3.bak"] [];
       Dir "x.wav" ["e"] [Dir "deep" ["f.wma"; "g.M4A"] []]].

Definition logic (_ : Taxonomy) : list event * result (option unit) :=
  ([LogInfo "Initializing SMGA UI..."], Ok (Some tt)).

Definition missing : ConfigEnv :=
  {| path_exists := false;
     json_load := Raise (FileNotFoundError "simplified_genre.json") |}.

Definition malformed : ConfigEnv :=
  {| path_exists := true;
     json_load := Raise (JSONDecodeError "Expecting value: line 1 column 1 (char 0)") |}.

Definition wellformed : ConfigEnv :=
  {| path_exists := true; json_load := Ok taxonomy |}.

End Example.

(* ------------------------------------------------------------------ *)
(** ** Specification-side definitions *)

(** [sub] occurs in [s]: [s] is some text, then [sub], then some text. *)
Definition substring_of (sub s : string) : Prop :=
  exists before after : string, s = (before ++ sub ++ after)%string.

(** A taxonomy entry matches a string when one of its keywords occurs
    in it. *)
Definition entry_matches (entry : string * list string) (s : string) : Prop :=
  exists keyword, In keyword (snd entry) /\ substring_of keyword s.

(** The output entry of the normaliser for one raw genre, and what it
    adds to the unmapped count. *)
Definition simplified_entry (simplified_keywords : Taxonomy) (genre : string)
  : string :=
  match find_match simplified_keywords (PyStr.strip (PyStr.lower genre)) with
  | Some m => if PyStr.truthy m then m else PyStr.title genre
  | None => PyStr.title genre
  end.

Definition unmapped_entry (simplified_keywords : Taxonomy) (genre : string)
  : nat :=
  match find_match simplified_keywords (PyStr.strip (PyStr.lower genre)) with
  | Some m => if PyStr.truthy m then 0 else 1
  | None => 1
  end.

(** The sum of the counts of a [Counter]: the total number of genre
    occurrences. *)
Definition count_total (c : Counter_t) : nat := list_sum (map snd c).

(** [counter[key]], 0 for a missing key. *)
Fixpoint counter_get (c : Counter_t) (key : pyval) : nat :=
  match c with
  | [] => 0
  | (k, n) :: c' => if pyval_eqb k key then n else counter_get c' key
  end.

(** The number of elements of a list equal to [key]. *)
Definition occurrences (key : pyval) (l : list pyval) : nat :=
  List.length (filter (pyval_eqb key) l).

(** The loop of [Counter] when every element is hashable. *)
Definition counter_of (l : list pyval) (c : Counter_t) : Counter_t :=
  fold_left (fun c elem => counter_incr elem c) l c.



Definition dist_count (d : distribution) : Counter_t :=
  match d with
  | Tuple3 c _ _ => c
  | Tuple2 c _ => c
  end.

Definition dist_percentage (d : distribution) : list (pyval * Q) :=
  match d with
  | Tuple3 _ p _ => p
  | Tuple2 _ p => p
  end.

(** The number of components of the returned tuple. *)
Definition dist_arity (d : distribution) : nat :=
  match d with
  | Tuple3 _ _ _ => 3
  | Tuple2 _ _ => 2
  end.

(** The pieces of a genre text: split on [;], each piece trimmed and
    lower-cased. *)
Definition genre_pieces (text : string) : list string :=
  map (fun g => PyStr.lower (PyStr.strip g)) (PyStr.split ";" text).

(** The value of the first of the keys, in their order, that the tags
    hold. *)
Fixpoint first_present (t : Tags) (tag_keys : list string) : option tag_value :=
  match tag_keys with
  | [] => None
  | key :: rest =>
      match tags_get t key with
      | Some v => Some v
      | None => first_present t rest
      end
  end.

(** The message of the error that [load_simplified_genres] raises for
    a missing file. *)
Definition not_found_message (plugin_dir : string) : string :=
  ("Simplified genre file not found: "
   ++ OsPath.join plugin_dir "simplified_genre.json")%string.

(** [reachable top t root file]: the recursive traversal of the
    directory [t], found at path [top], meets the file named [file] in
    the directory of path [root]. *)
Inductive reachable : string -> tree -> string -> string -> Prop :=
| reach_here (top name : string) (files : list string) (subdirs : list tree)
             (file : string) :
    In file files -> reachable top (Dir name files subdirs) top file
| reach_below (top name : string) (files : list string) (subdirs : list tree)
              (sub : tree) (root file : string) :
    In sub subdirs ->
    reachable (OsPath.join top (dirname sub)) sub root file ->
    reachable top (Dir name files subdirs) root file.

(** A name without a path separator. *)
Definition sep_free (name : string) : bool :=
  match PyStr.after_last OsPath.sep name with
  | None => true
  | Some _ => false
  end.

(** No file name of the directory holds a path separator. *)
Fixpoint names_ok (t : tree) : bool :=
  match t with
  | Dir _ files subdirs => forallb sep_free files && forallb names_ok subdirs
  end.

(** The extension is one of the allow-list, whatever its case. *)
Definition allowed_extension (file : string) : Prop :=
  In (PyStr.lower (OsPath.ext file)) audio_extensions.

(** Induction on directories, with the hypothesis for every
    subdirectory. *)
Fixpoint tree_induction (P : tree -> Prop)
    (step : forall name files subdirs,
        Forall P subdirs -> P (Dir name files subdirs))
    (t : tree) : P t :=
  match t with
  | Dir name files subdirs =>
      step name files subdirs
           ((fix all (l : list tree) : Forall P l :=
               match l with
               | [] => Forall_nil P
               | sub :: l' =>
                   Forall_cons sub (tree_induction P step sub) (all l')
               end) subdirs)
  end.

(* ------------------------------------------------------------------ *)
(** ** The user interface: [smga_main_logic] and its nested functions *)

Module UI.

(** [str(n)] for a non-negative [int]. *)
Definition str_nat (n : nat) : string := NilZero.string_of_uint (Nat.to_uint n).

(** What may be raised inside the [try] of [perform_analysis]. *)
Inductive error : Type :=
| ZeroDivisionError
| Builtin (e : exn).

(** [str(e)] *)
Definition error_str (e : error) : string :=
  match e with
  | ZeroDivisionError => "division by zero"
  | Builtin e => exn_str e
  end.

(** A row of the results table: the genre in title case, the count as
    text, and the percentage that the third cell shows with two
    decimals. *)
Record Row : Type := {
  genre_cell : string;
  count_cell : string;
  percentage_value : Q
}.

(** The widgets that the nested functions read and write: the
    directory line edit, the two radio buttons (one group, so exactly
    one is checked after [setChecked(True)]), the analyze button, the
    overlap label and the model set on the results table ([None] until
    [setModel] is called). *)
Record Widgets : Type := {
  directory_text : string;
  simple_checked : bool;
  button_text : string;
  button_enabled : bool;
  overlap_text : string;
  table : option (list Row)
}.

Definition set_directory (w : Widgets) (text : string) : Widgets :=
  {| directory_text := text;
     simple_checked := simple_checked w;
     button_text := button_text w;
     button_enabled := button_enabled w;
     overlap_text := overlap_text w;
     table := table w |}.

Definition set_simple (w : Widgets) (checked : bool) : Widgets :=
  {| directory_text := directory_text w;
     simple_checked := checked;
     button_text := button_text w;
     button_enabled := button_enabled w;
     overlap_text := overlap_text w;
     table := table w |}.

Definition set_button (w : Widgets) (text : string) (enabled : bool)
  : Widgets :=
  {| directory_text := directory_text w;
     simple_checked := simple_checked w;
     button_text := text;
     button_enabled := enabled;
     overlap_text := overlap_text w;
     table := table w |}.

Definition set_overlap (w : Widgets) (text : string) : Widgets :=
  {| directory_text := directory_text w;
     simple_checked := simple_checked w;
     button_text := button_text w;
     button_enabled := button_enabled w;
     overlap_text := text;
     table := table w |}.

Definition set_table (w : Widgets) (rows : list Row) : Widgets :=
  {| directory_text := directory_text w;
     simple_checked := simple_checked w;
     button_text := button_text w;
     button_enabled := button_enabled w;
     overlap_text := overlap_text w;
     table := Some rows |}.

(** Log lines and message boxes of the nested functions. *)
Inductive ui_event : Type :=
| Host (e : event)
| MessageBoxWarning (title text : string)
| MessageBoxInformation (title text : string).

(** [count / total_tracks * 100]; the division raises for a zero
    divisor. *)
Definition percent (count total_tracks : nat) : error + Q :=
  if total_tracks =? 0 then inl ZeroDivisionError
  else inr (percentage count total_tracks).

(** The dictionary comprehension of [perform_analysis], evaluated item
    by item. *)
Fixpoint percentage_dict (items : Counter_t) (total_tracks : nat)
  : error + list (pyval * Q) :=
  match items with
  | [] => inr []
  | (genre, count) :: rest =>
      match percent count total_tracks with
      | inl e => inl e
      | inr p =>
          match percentage_dict rest total_tracks with
          | inl e => inl e
          | inr d => inr ((genre, p) :: d)
          end
      end
  end.

(** [genre_percentage.get(key, default)] *)
Fixpoint dict_get (d : list (pyval * Q)) (key : pyval) (default : Q) : Q :=
  match d with
  | [] => default
  | (k, v) :: d' => if pyval_eqb k key then v else dict_get d' key default
  end.

(** The sort key of [display_results]. *)
Definition sort_key (genre_percentage : list (pyval * Q))
    (item : pyval * nat) : Q :=
  dict_get genre_percentage (fst item) 0%Q.

(** [sorted(items, key=key, reverse=True)]: the stable sort in
    descending key order, written as an insertion sort; an item goes
    behind the items of strictly larger key only, so items of equal key
    keep their order. *)
Fixpoint insert_desc {A : Type} (key : A -> Q) (x : A) (l : list A) : list A :=
  match l with
  | [] => [x]
  | y :: l' =>
      if Qle_bool (key y) (key x) then x :: y :: l'
      else y :: insert_desc key x l'
  end.

Definition sorted_desc {A : Type} (key : A -> Q) (l : list A) : list A :=
  fold_right (insert_desc key) [] l.

(** One row of [display_results]; [genre.title()] needs a [str]. *)
Definition display_row (genre_percentage : list (pyval * Q))
    (item : pyval * nat) : error + Row :=
  match fst item with
  | PStr genre =>
      inr {| genre_cell := PyStr.title genre;
             count_cell := str_nat (snd item);
             percentage_value := dict_get genre_percentage (fst item) 0%Q |}
  | _ => inl (Builtin (AttributeError "object has no attribute 'title'"))
  end.

Fixpoint display_rows (genre_percentage : list (pyval * Q))
    (items : Counter_t) : error + list Row :=
  match items with
  | [] => inr []
  | item :: rest =>
      match display_row genre_percentage item with
      | inl e => inl e
      | inr row =>
          match display_rows genre_percentage rest with
          | inl e => inl e
          | inr rows => inr (row :: rows)
          end
      end
  end.

(** [display_results]: the rows of the model that [setModel] installs. *)
Definition display_results (genre_count : Counter_t)
    (genre_percentage : list (pyval * Q)) : error + list Row :=
  display_rows genre_percentage
               (sorted_desc (sort_key genre_percentage) genre_count).

(** [select_directory], given what the directory dialog returns (the
    empty string when it is cancelled). *)
Definition select_directory (w : Widgets) (directory : string)
  : Widgets * list ui_event :=
  if PyStr.truthy directory
  then (set_directory w directory,
        [Host (LogInfo ("Directory selected: " ++ directory)%string)])
  else (w, [Host (LogWarning "No directory selected.")]).

(** [analyze], up to the timer that later runs [perform_analysis]. *)
Definition analyze (w : Widgets) : Widgets * list ui_event :=
  (set_button w "Analyzing..." false,
   [Host (LogInfo (if simple_checked w then "Simple Analysis Started."
                   else "Complex Analysis Started."))]).

Section Slots.

(** [mutagen.File] and the directories of the file system: [listdir
    path] is the directory at [path], if there is one ([os.walk] yields
    nothing otherwise), or the exception that [os.walk] raises for a
    path it does not accept ([ValueError] for a NUL character). *)
Variable File : string -> result (option FileType).
Variable listdir : string -> result (option tree).
Variable simplified_keywords : Taxonomy.

(** [get_audio_files(selected_directory)] on this file system. *)
Definition discover (directory : string) : result (list string) :=
  match listdir directory with
  | Ok (Some t) => Ok (get_audio_files directory t)
  | Ok None => Ok []
  | Raise e => Raise e
  end.

(** The [except Exception as e] handler. *)
Definition handler (e : error) : list ui_event :=
  [Host (LogError ("An error occurred during analysis: "
                   ++ error_str e)%string);
   Host (MessageBoxCritical "Error"
                            ("An error occurred: " ++ error_str e)%string)].

(** The last log lines of the [try] block. *)
Definition summary (use_simple_genres : bool) (files genres unmapped : nat)
  : list ui_event :=
  if use_simple_genres then
    Host (LogInfo ("Simple Analysis Complete: " ++ str_nat files
                   ++ " audio files processed. " ++ str_nat genres
                   ++ " genres found.")%string)
    :: (if 0 <? unmapped
        then [Host (LogWarning
                      (str_nat unmapped
                       ++ " songs could not be simplified into a genre.")%string)]
        else [])
  else
    [Host (LogInfo ("Complex Analysis Complete: " ++ str_nat files
                    ++ " audio files processed. " ++ str_nat genres
                    ++ " genres found.")%string)].

(** The [try] block of [perform_analysis] after the two early returns:
    the widgets and events it leaves, and the exception it raised, if
    any. *)
Definition analysis_block (w : Widgets) (audio_files : list string)
  : Widgets * list ui_event * option error :=
  let use_simple_genres := simple_checked w in
  let genres := flat_map (get_genre File) audio_files in
  let '(genres, unmapped_count) :=
    if use_simple_genres
    then map_to_simplified_genres genres simplified_keywords
    else (genres, 0) in
  match Counter (map PStr genres) with
  | Raise e => (w, [], Some (Builtin e))
  | Ok genre_count =>
      let total_tracks := List.length genres in
      let overlap_count := calculate_overlap File audio_files in
      let w := set_overlap w (str_nat overlap_count) in
      match percentage_dict genre_count total_tracks with
      | inl e => (w, [], Some e)
      | inr genre_percentage =>
          match display_results genre_count genre_percentage with
          | inl e => (w, [], Some e)
          | inr rows =>
              (set_table w rows,
               summary use_simple_genres (List.length audio_files)
                       (List.length genre_count) unmapped_count,
               None)
          end
      end
  end.

(** [perform_analysis]: the [try] with its two early returns, the
    [except Exception] handler and the [finally] clause. *)
Definition perform_analysis (w : Widgets) : Widgets * list ui_event :=
  let '(w, events) :=
    let selected_directory := PyStr.strip (directory_text w) in
    if negb (PyStr.truthy selected_directory) then
      (w, [Host (LogWarning "No directory selected for analysis.");
           MessageBoxWarning "Error" "Please select a directory first."])
    else
      match discover selected_directory with
      | Raise e => (w, handler (Builtin e))
      | Ok [] =>
          (w, [Host (LogInfo "No audio files found in the selected directory.");
               MessageBoxInformation
                 "Analysis" "No audio files found in the selected directory."])
      | Ok audio_files =>
          match analysis_block w audio_files with
          | (w, events, None) => (w, events)
          | (w, events, Some e) => (w, events ++ handler e)
          end
      end in
  (set_button w "Analyze" true, events).

End Slots.

(** The parent widget: [parent_widget.layout()] is [None] or a
    layout, given by its truth value (a layout without items is
    false). *)
Record Parent : Type := { layout : option bool }.

(** What [smga_main_logic] finds: whether [SMGA.ui] exists, the widgets
    that [uic.loadUi] builds from it, whether that file defines the
    three widgets that [smga_main_logic] itself uses (the complex radio
    button and the two push buttons), and whether its two radio
    buttons exclude each other. *)
Record UiEnv : Type := {
  ui_exists : bool;
  loadUi : result Widgets;
  has_complex_radio : bool;
  has_select_button : bool;
  has_analyze_button : bool;
  radios_exclusive : bool
}.

Definition ui_not_found_message (plugin_dir : string) : string :=
  ("UI file not found at: " ++ OsPath.join plugin_dir "SMGA.ui")%string.

(** [smga_main_logic]: it returns the plugin widget, or [None] when the
    UI file is missing; it raises [AttributeError] for the parent
    [None] and for a widget that [findChild] did not find. *)
Definition smga_main_logic (plugin_dir : string) (env : UiEnv)
    (parent_widget : option Parent) (simplified_keywords : Taxonomy)
  : list event * result (option Widgets) :=
  let log := [LogInfo "Initializing SMGA UI..."] in
  if negb (ui_exists env) then
    (log ++ [LogError (ui_not_found_message plugin_dir);
             MessageBoxCritical "Error" (ui_not_found_message plugin_dir)],
     Ok None)
  else
    match loadUi env with
    | Raise e => (log, Raise e)
    | Ok plugin_widget =>
        match parent_widget with
        | None =>
            (log, Raise (AttributeError
                           "'NoneType' object has no attribute 'layout'"))
        | Some parent =>
            let log :=
              log ++ [match layout parent with
                      | Some true =>
                          LogWarning "Parent widget already has a layout. Adding the plugin widget to the existing layout."
                      | _ => LogInfo "Setting a new layout for the parent widget."
                      end] in
            if negb (has_complex_radio env) then
              (log, Raise (AttributeError
                             "'NoneType' object has no attribute 'setChecked'"))
            else if negb (has_select_button env && has_analyze_button env) then
              (log, Raise (AttributeError
                             "'NoneType' object has no attribute 'clicked'"))
            else
              (log, Ok (Some (if radios_exclusive env
                              then set_simple plugin_widget false
                              else plugin_widget)))
        end
    end.

End UI.

(* ------------------------------------------------------------------ *)
(** ** Further specification-side definitions *)

(** The number of occurrences of a character in a string. *)
Fixpoint count_char (c : ascii) (s : string) : nat :=
  match s with
  | EmptyString => 0
  | String a s' => (if Ascii.eqb a c then 1 else 0) + count_char c s'
  end.

(** A string of dots only. *)
Fixpoint only_dots (s : string) : bool :=
  match s with
  | EmptyString => true
  | String a s' => Ascii.eqb a OsPath.extsep && only_dots s'
  end.

(** The text that [get_genre] splits: the value of the first of the
    keys genre, GENRE, TCON that the file holds, or its first element
    if that value is a list. *)
Definition tag_text (File : string -> result (option FileType))
    (file_path : string) : option string :=
  match File file_path with
  | Ok (Some audio) =>
      match tags audio with
      | Some t =>
          match first_present t ["genre"; "GENRE"; "TCON"] with
          | Some (TagList (first :: _)) => Some first
          | Some (TagOther text) => Some text
          | _ => None
          end
      | None => None
      end
  | _ => None
  end.

(** The normaliser found a non-empty name for the genre. *)
Definition mapped (simplified_keywords : Taxonomy) (genre : string) : bool :=
  match find_match simplified_keywords (PyStr.strip (PyStr.lower genre)) with
  | Some m => PyStr.truthy m
  | None => false
  end.

(** The row that [display_results] shows for an item of a counter of
    strings. *)
Definition row_of (genre_percentage : list (pyval * Q))
    (item : string * nat) : UI.Row :=
  {| UI.genre_cell := PyStr.title (fst item);
     UI.count_cell := UI.str_nat (snd item);
     UI.percentage_value :=
       UI.dict_get genre_percentage (PStr (fst item)) 0%Q |}.

(** The keys of a counter are strings. *)
Definition string_keys (c : Counter_t) : bool :=
  forallb (fun item => match fst item with PStr _ => true | _ => false end) c.

(** The text of a key ([str] keys only). *)
Definition key_text (v : pyval) : string :=
  match v with
  | PStr s => s
  | _ => EmptyString
  end.

(** A file system and a plugin widget for the examples: the directory
    [/music] holds [Example.music]. *)
Module Demo.

Definition listdir (path : string) : result (option tree) :=
  if String.eqb path "/music" then Ok (Some Example.music)
  else if 0 <? count_char "000" path
       then Raise (ValueError "embedded null byte")
       else Ok None.

Definition widgets : UI.Widgets :=
  {| UI.directory_text := " /music ";
     UI.simple_checked := true;
     UI.button_text := "Analyzing...";
     UI.button_enabled := false;
     UI.overlap_text := "";
     UI.table := None |}.

Definition ui_env : UI.UiEnv :=
  {| UI.ui_exists := true;
     UI.loadUi := Ok widgets;
     UI.has_complex_radio := true;
     UI.has_select_button := true;
     UI.has_analyze_button := true;
     UI.radios_exclusive := true |}.

Definition parent : UI.Parent := {| UI.layout := None |}.

End Demo.

(* ------------------------------------------------------------------ *)
(** ** What matching, trimming and lower-casing mean *)

(** [name] is the name of the first entry of the taxonomy, in its
    order, that matches the string. *)
Definition first_match (simplified_keywords : Taxonomy) (s name : string)
  : Prop :=
  exists earlier keywords later,
    simplified_keywords = earlier ++ (name, keywords) :: later
    /\ entry_matches (name, keywords) s
    /\ forall entry, In entry earlier -> ~ entry_matches entry s.

(** No entry of the taxonomy matches the string. *)
Definition no_match (simplified_keywords : Taxonomy) (s : string) : Prop :=
  forall entry, In entry simplified_keywords -> ~ entry_matches entry s.

(** The white-space characters below 256, by code point. *)
Definition white_space_codes : list nat :=
  [9; 10; 11; 12; 13; 28; 29; 30; 31; 32; 133; 160].

Definition is_white (c : ascii) : bool :=
  existsb (Nat.eqb (nat_of_ascii c)) white_space_codes.

Fixpoint all_white (s : string) : bool :=
  match s with
  | EmptyString => true
  | String c s' => is_white c && all_white s'
  end.

Definition first_char (s : string) : option ascii :=
  match s with
  | EmptyString => None
  | String c _ => Some c
  end.

Fixpoint last_char (s : string) : option ascii :=
  match s with
  | EmptyString => None
  | String c EmptyString => Some c
  | String _ s' => last_char s'
  end.

Definition not_white (c : option ascii) : Prop :=
  match c with
  | Some c => is_white c = false
  | None => True
  end.

(** [core] is [piece] without its leading and trailing white space. *)
Definition trimmed (piece core : string) : Prop :=
  (exists lead trail,
      piece = (lead ++ core ++ trail)%string
      /\ all_white lead = true /\ all_white trail = true)
  /\ not_white (first_char core)
  /\ not_white (last_char core).

(** The letters below 256 that have a lower case, with it, by code
    point. *)
Definition lower_case_table : list (nat * nat) :=
  [(65, 97); (66, 98); (67, 99); (68, 100); (69, 101); (70, 102);
   (71, 103); (72, 104); (73, 105); (74, 106); (75, 107); (76, 108);
   (77, 109); (78, 110); (79, 111); (80, 112); (81, 113); (82, 114);
   (83, 115); (84, 116); (85, 117); (86, 118); (87, 119); (88, 120);
   (89, 121); (90, 122); (192, 224); (193, 225); (194, 226); (195, 227);
   (196, 228); (197, 229); (198, 230); (199, 231); (200, 232); (201, 233);
   (202, 234); (203, 235); (204, 236); (205, 237); (206, 238); (207, 239);
   (208, 240); (209, 241); (210, 242); (211, 243); (212, 244); (213, 245);
   (214, 246); (216, 248); (217, 249); (218, 250); (219, 251); (220, 252);
   (221, 253); (222, 254)].

Fixpoint table_get (table : list (nat * nat)) (key : nat) : option nat :=
  match table with
  | [] => None
  | (k, v) :: table' => if k =? key then Some v else table_get table' key
  end.

(** The lower case of a character: the table's entry, or the character
    itself. *)
Definition lower_case_of (c : ascii) : ascii :=
  match table_get lower_case_table (nat_of_ascii c) with
  | Some l => ascii_of_nat l
  | None => c
  end.

(** [low] is [s] with every character replaced by its lower case. *)
Fixpoint lowered (s low : string) : Prop :=
  match s, low with
  | EmptyString, EmptyString => True
  | String c s', String l low' => l = lower_case_of c /\ lowered s' low'
  | _, _ => False
  end.

(** Every character is below 128. *)
Fixpoint is_ascii (s : string) : bool :=
  match s with
  | EmptyString => true
  | String c s' => (nat_of_ascii c <? 128) && is_ascii s'
  end.

(* ------------------------------------------------------------------ *)
(** ** Strings *)

Lemma prefix_app (sub rest : string) : prefix sub (sub ++ rest) = true.
Proof.
  induction sub as [|c sub IH]; simpl.
  - now destruct rest.
  - destruct (ascii_dec c c) as [_|ne]; [exact IH | now elim ne].
Qed.

Lemma prefix_split (sub s : string) :
  prefix sub s = true -> exists rest, s = (sub ++ rest)%string.
Proof.
  revert s; induction sub as [|c sub IH]; intros s H.
  - now exists s.
  - destruct s as [|d s]; simpl in H; [discriminate|].
    destruct (ascii_dec c d) as [->|]; [|discriminate].
    destruct (IH _ H) as [rest ->]. now exists rest.
Qed.

Lemma contains_unfold (sub s : string) :
  PyStr.contains sub s
  = if prefix sub s then true
    else match s with
         | EmptyString => false
         | String _ s' => PyStr.contains sub s'
         end.
Proof. destruct s; reflexivity. Qed.

(** [PyStr.contains] decides the substring relation. *)
Lemma contains_spec (sub s : string) :
  PyStr.contains sub s = true <-> substring_of sub s.
Proof.
  split.
  - induction s as [|c s IH]; rewrite contains_unfold;
      destruct (prefix sub _) eqn:P;
      try (intros _; destruct (prefix_split _ _ P) as [rest E];
           now exists ""%string, rest).
    + discriminate.
    + intros H. destruct (IH H) as (b & a & ->).
      now exists (String c b), a.
  - intros (b & a & ->). induction b as [|c b IH]; rewrite contains_unfold.
    + change ("" ++ sub ++ a)%string with (sub ++ a)%string.
      now rewrite prefix_app.
    + destruct (prefix sub _); [reflexivity | exact IH].
Qed.

Lemma tolower_not_upper (c : ascii) : PyStr.isupper (PyStr.tolower c) = false.
Proof. destruct c as [[] [] [] [] [] [] [] []]; reflexivity. Qed.

Lemma tolower_idempotent (c : ascii) :
  PyStr.tolower (PyStr.tolower c) = PyStr.tolower c.
Proof.
  unfold PyStr.tolower at 1. now rewrite tolower_not_upper.
Qed.

(** Lower-casing keeps the length and leaves no upper-case letter. *)
Lemma lower_length (s : string) :
  String.length (PyStr.lower s) = String.length s.
Proof. induction s as [|c s IH]; cbn; congruence. Qed.

Lemma lower_idempotent (s : string) :
  PyStr.lower (PyStr.lower s) = PyStr.lower s.
Proof.
  induction s as [|c s IH]; cbn [PyStr.lower]; [reflexivity|].
  now rewrite tolower_idempotent, IH.
Qed.

(** A stripped string neither starts nor ends with white space. *)
Lemma lstrip_head (s : string) :
  match PyStr.lstrip s with
  | String c _ => PyStr.isspace c = false
  | EmptyString => True
  end.
Proof.
  induction s as [|c s IH]; cbn [PyStr.lstrip]; [exact I|].
  destruct (PyStr.isspace c) eqn:E; [exact IH | exact E].
Qed.

Lemma rstrip_unfold (c : ascii) (s : string) :
  PyStr.rstrip (String c s)
  = match PyStr.rstrip s with
    | EmptyString =>
        if PyStr.isspace c then EmptyString else String c EmptyString
    | r => String c r
    end.
Proof. reflexivity. Qed.

Lemma rstrip_last (s : string) (c : ascii) :
  PyStr.isspace c = true -> PyStr.endswith c (PyStr.rstrip s) = false.
Proof.
  intros Hc. induction s as [|x s IH]; [reflexivity|].
  rewrite rstrip_unfold. destruct (PyStr.rstrip s) as [|y r] eqn:R.
  - destruct (PyStr.isspace x) eqn:E; [reflexivity|].
    cbn. destruct (Ascii.eqb_spec x c); [congruence | reflexivity].
  - exact IH.
Qed.

Lemma rstrip_head (s : string) :
  match s with
  | String c _ => PyStr.isspace c = false
  | EmptyString => True
  end ->
  match PyStr.rstrip s with
  | String c _ => PyStr.isspace c = false
  | EmptyString => True
  end.
Proof.
  destruct s as [|c s]; [auto|]. intros H. rewrite rstrip_unfold.
  destruct (PyStr.rstrip s); [now rewrite H | exact H].
Qed.

Lemma strip_ends (s : string) (c : ascii) :
  PyStr.isspace c = true ->
  PyStr.startswith c (PyStr.strip s) = false
  /\ PyStr.endswith c (PyStr.strip s) = false.
Proof.
  intros Hc. split; [|now apply rstrip_last].
  unfold PyStr.strip.
  pose proof (rstrip_head _ (lstrip_head s)) as H.
  destruct (PyStr.rstrip (PyStr.lstrip s)) as [|x r]; [reflexivity|].
  cbn. destruct (Ascii.eqb_spec x c); [congruence | reflexivity].
Qed.

(** Joining the pieces of a split with the separator gives the text
    back: no character is lost. *)
Lemma split_nonempty (sep : ascii) (s : string) : PyStr.split sep s <> [].
Proof.
  destruct s as [|c s]; cbn [PyStr.split]; [discriminate|].
  destruct (Ascii.eqb c sep); [discriminate|].
  destruct (PyStr.split sep s); discriminate.
Qed.

Lemma concat_cons (sep x : string) (l : list string) :
  l <> [] ->
  String.concat sep (x :: l) = (x ++ sep ++ String.concat sep l)%string.
Proof. destruct l; [congruence | reflexivity]. Qed.

Lemma concat_cons_head (sep : string) (c : ascii) (p : string)
    (rest : list string) :
  String.concat sep (String c p :: rest)
  = String c (String.concat sep (p :: rest)).
Proof. destruct rest; reflexivity. Qed.

Lemma split_join (sep : ascii) (s : string) :
  String.concat (String sep EmptyString) (PyStr.split sep s) = s.
Proof.
  induction s as [|c s IH]; [reflexivity|].
  cbn [PyStr.split]. destruct (Ascii.eqb_spec c sep) as [->|ne].
  - rewrite concat_cons by apply split_nonempty. now rewrite IH.
  - pose proof (split_nonempty sep s) as N.
    destruct (PyStr.split sep s) as [|p rest]; [congruence|].
    now rewrite concat_cons_head, IH.
Qed.

Lemma title_length (s : string) :
  String.length (PyStr.title s) = String.length s.
Proof.
  unfold PyStr.title. generalize false.
  induction s as [|c s IH]; intros b; cbn; [reflexivity|].
  now rewrite IH.
Qed.

Example lower_example : PyStr.lower "Classic Rock" = "classic rock".
Proof. reflexivity. Qed.

Example strip_example : PyStr.strip "  Deep  House  " = "Deep  House".
Proof. reflexivity. Qed.

Example title_example :
  PyStr.title "rock'n'roll 2pac hIP-hop" = "Rock'N'Roll 2Pac Hip-Hop".
Proof. reflexivity. Qed.

Example split_example : PyStr.split ";" "Rock; Pop;;" = ["Rock"; " Pop"; ""; ""].
Proof. reflexivity. Qed.

(** Capital E with acute accent (201) and the no-break space (160). *)
Example lower_accent_example :
  PyStr.lower (String "201" "lectro") = String "233" "lectro"
  /\ PyStr.title (String "233" "lectro") = String "201" "lectro".
Proof. split; reflexivity. Qed.

Example strip_no_break_space_example :
  PyStr.strip (String "160" ("rock" ++ String "133" "")) = "rock".
Proof. reflexivity. Qed.

Example splitext_example :
  map OsPath.splitext ["song.MP3"; ".mp3"; "a.tar.gz"; "x.wav/e"; "..a.b"]
  = [("song", ".MP3"); (".mp3", ""); ("a.tar", ".gz"); ("x.wav/e", "");
     ("..a", ".b")].
Proof. reflexivity. Qed.

Example join_example :
  map (OsPath.join "/music") ["A.mp3"; "/abs"] = ["/music/A.mp3"; "/abs"]
  /\ OsPath.join "/music/" "A.mp3" = "/music/A.mp3"
  /\ OsPath.join "" "A.mp3" = "A.mp3".
Proof. repeat split. Qed.

Lemma truthy_nonempty (s : string) : PyStr.truthy s = true <-> s <> ""%string.
Proof. destruct s; simpl; split; congruence. Qed.

(* ------------------------------------------------------------------ *)
(** ** The normaliser *)

Section Normaliser.

Variable simplified_keywords : Taxonomy.

Lemma simplify_step_eq (out : list string) (n : nat) (genre : string) :
  simplify_step simplified_keywords (out, n) genre
  = (out ++ [simplified_entry simplified_keywords genre],
     n + unmapped_entry simplified_keywords genre).
Proof.
  unfold simplify_step, simplified_entry, unmapped_entry.
  destruct (find_match _ _) as [m|]; [destruct (PyStr.truthy m)|];
    rewrite ?Nat.add_0_r; reflexivity.
Qed.

Lemma simplify_loop (genres : list string) :
  forall out n,
    fold_left (simplify_step simplified_keywords) genres (out, n)
    = (out ++ map (simplified_entry simplified_keywords) genres,
       n + list_sum (map (unmapped_entry simplified_keywords) genres)).
Proof.
  induction genres as [|g genres IH]; intros out n; cbn [fold_left].
  - cbn. now rewrite app_nil_r, Nat.add_0_r.
  - rewrite simplify_step_eq, IH, <- app_assoc, <- Nat.add_assoc. reflexivity.
Qed.

(** The normaliser is a map over its input, and its count a sum. *)
Lemma map_to_simplified_genres_eq (genres : list string) :
  map_to_simplified_genres genres simplified_keywords
  = (map (simplified_entry simplified_keywords) genres,
     list_sum (map (unmapped_entry simplified_keywords) genres)).
Proof. unfold map_to_simplified_genres. now rewrite simplify_loop. Qed.

End Normaliser.

Lemma existsb_contains (keywords : list string) (s : string) (name : string) :
  existsb (fun keyword => PyStr.contains keyword s) keywords = true
  <-> entry_matches (name, keywords) s.
Proof.
  rewrite existsb_exists. unfold entry_matches; simpl.
  split; intros (k & Hin & H); exists k; split; auto;
    now apply contains_spec.
Qed.

(** First match wins: [find_match] returns the name of the first entry,
    in the order of the taxonomy, that matches. *)
Lemma find_match_first (simplified_keywords : Taxonomy) (s name : string) :
  find_match simplified_keywords s = Some name
  <-> exists earlier keywords later,
        simplified_keywords = earlier ++ (name, keywords) :: later
        /\ entry_matches (name, keywords) s
        /\ forall entry, In entry earlier -> ~ entry_matches entry s.
Proof.
  induction simplified_keywords as [|[n kws] rest IH]; simpl.
  - split; [discriminate|]. intros (e & k & l & E & _). now destruct e.
  - destruct (existsb _ kws) eqn:M.
    + split.
      * intros [= ->]. exists [], kws, rest. repeat split; auto.
        now apply existsb_contains.
      * intros ([|[n' k'] e] & k & l & E & Hm & Hno); simpl in E.
        -- now injection E as -> _ _.
        -- injection E as <- <- _. exfalso.
           apply (Hno (n, kws)); [now left|]. now apply existsb_contains.
    + rewrite IH. split.
      * intros (e & k & l & -> & Hm & Hno).
        exists ((n, kws) :: e), k, l. repeat split; auto.
        intros entry [<-|Hin]; [|now apply Hno].
        intros C. apply (existsb_contains kws s n) in C. congruence.
      * intros ([|[n' k'] e] & k & l & E & Hm & Hno); simpl in E.
        -- injection E as <- <- _. apply existsb_contains in Hm. congruence.
        -- injection E as _ _ ->. exists e, k, l. repeat split; auto.
           intros entry Hin. apply Hno. now right.
Qed.

Lemma find_match_none (simplified_keywords : Taxonomy) (s : string) :
  find_match simplified_keywords s = None
  <-> forall entry, In entry simplified_keywords -> ~ entry_matches entry s.
Proof.
  induction simplified_keywords as [|[n kws] rest IH]; simpl.
  - split; [intros _ entry [] | reflexivity].
  - destruct (existsb _ kws) eqn:M.
    + split; [discriminate|]. intros H. exfalso.
      apply (H (n, kws)); [now left|]. now apply existsb_contains.
    + rewrite IH. split.
      * intros H entry [<-|Hin]; [|now apply H].
        intros C. apply (existsb_contains kws s n) in C. congruence.
      * intros H entry Hin. apply H. now right.
Qed.

(** An entry whose name is the empty string is selected like any other,
    but [if matched:] then takes the unmapped branch. *)
Lemma empty_name_counts_as_unmapped
    (simplified_keywords : Taxonomy) (genre : string)
    (simplified_genres : list string) (unmapped : nat) :
  find_match simplified_keywords (PyStr.strip (PyStr.lower genre))
  = Some ""%string ->
  simplify_step simplified_keywords (simplified_genres, unmapped) genre
  = (simplified_genres ++ [PyStr.title genre], unmapped + 1).
Proof. intros H. unfold simplify_step. now rewrite H. Qed.

Lemma normaliser_at (simplified_keywords : Taxonomy)
    (before : list string) (genre : string) (after : list string) :
  map_to_simplified_genres (before ++ genre :: after) simplified_keywords
  = (fst (map_to_simplified_genres before simplified_keywords)
       ++ simplified_entry simplified_keywords genre
       :: fst (map_to_simplified_genres after simplified_keywords),
     snd (map_to_simplified_genres before simplified_keywords)
     + unmapped_entry simplified_keywords genre
     + snd (map_to_simplified_genres after simplified_keywords)).
Proof.
  rewrite !map_to_simplified_genres_eq. cbn [fst snd].
  rewrite !map_app, list_sum_app. cbn [map].
  change (list_sum (?a :: ?l)) with (a + list_sum l).
  f_equal. lia.
Qed.

(** C6, amended. For every raw genre of a list and every taxonomy, the
    normaliser scans the taxonomy in its order and selects the name of
    the first entry one of whose keywords is a substring of the
    lower-cased, trimmed raw genre; a selected name that is not the
    empty string is the output entry at the genre's position and
    leaves the unmapped count of the call as it is; when no entry
    matches, or the selected name is the empty string, the output
    entry is the raw genre in title case and the unmapped count of the
    call grows by exactly one.  One of the cases always applies. *)
Theorem normaliser_first_match_wins
    (simplified_keywords : Taxonomy)
    (before : list string) (genre : string) (after : list string) :
  let genre_lower := PyStr.strip (PyStr.lower genre) in
  let result :=
    map_to_simplified_genres (before ++ genre :: after) simplified_keywords in
  let head := map_to_simplified_genres before simplified_keywords in
  let tail := map_to_simplified_genres after simplified_keywords in
  (forall name,
      first_match simplified_keywords genre_lower name ->
      name <> ""%string ->
      result = (fst head ++ name :: fst tail, snd head + snd tail))
  /\ (first_match simplified_keywords genre_lower ""
      \/ no_match simplified_keywords genre_lower ->
      result = (fst head ++ PyStr.title genre :: fst tail,
                snd head + 1 + snd tail))
  /\ ((exists name, first_match simplified_keywords genre_lower name)
      \/ no_match simplified_keywords genre_lower).
Proof.
  cbv zeta. rewrite normaliser_at.
  unfold simplified_entry, unmapped_entry.
  split; [|split].
  - intros name Hm Hne. apply find_match_first in Hm. rewrite Hm.
    apply truthy_nonempty in Hne. rewrite Hne. f_equal. lia.
  - intros [Hm|Hn].
    + apply find_match_first in Hm. now rewrite Hm.
    + apply find_match_none in Hn. now rewrite Hn.
  - destruct (find_match simplified_keywords
                         (PyStr.strip (PyStr.lower genre))) as [name|] eqn:E.
    + left. exists name. exact (proj1 (find_match_first _ _ _) E).
    + right. exact (proj1 (find_match_none _ _) E).
Qed.

Lemma normaliser_first_match_wins_witness :
  map_to_simplified_genres ["rock"; "Tech-House"; " Bossa Nova"]
                           Example.taxonomy
  = (["rock"; "electronic"; " Bossa Nova"], 1).
Proof.
  assert (M : first_match Example.taxonomy
                          (PyStr.strip (PyStr.lower "Tech-House"))
                          "electronic").
  { exists [("rock", ["rock"])], ["techno"; "house"], []. split; [reflexivity|].
    split.
    - exists "house"%string. split; [right; left; reflexivity|].
      now exists "tech-"%string, ""%string.
    - intros entry [<-|[]] (k & [<-|[]] & H).
      apply contains_spec in H. discriminate H. }
  assert (N : "electronic"%string <> ""%string) by discriminate.
  exact (proj1 (normaliser_first_match_wins
                  Example.taxonomy ["rock"] "Tech-House" [" Bossa Nova"])
               "electronic"%string M N).
Defined.

(** An entry named with the empty string is the first match, yet the
    output is the raw genre in title case and the unmapped count
    grows, as if nothing had matched. *)
Lemma normaliser_empty_name_unmapped :
  first_match [("", ["rock"])] (PyStr.strip (PyStr.lower "rock")) ""
  /\ map_to_simplified_genres ["rock"] [("", ["rock"])] = (["Rock"], 1)
  /\ map_to_simplified_genres ["rock"] [("", ["rock"])] <> ([""], 0).
Proof.
  split; [|split; [reflexivity | discriminate]].
  exists [], ["rock"], []. split; [reflexivity|]. split.
  - exists "rock"%string. split; [left; reflexivity|].
    now exists ""%string, ""%string.
  - intros entry [].
Qed.

(** C7. The simplified list has the length of the input list, and its
    i-th entry is the entry the normaliser produces for the i-th input
    alone: nothing is dropped or reordered. *)
Theorem normaliser_keeps_length_and_order
    (simplified_keywords : Taxonomy) (genres : list string) :
  let simplified := fst (map_to_simplified_genres genres simplified_keywords) in
  List.length simplified = List.length genres
  /\ (forall i,
         nth_error simplified i
         = match nth_error genres i with
           | Some g =>
               nth_error (fst (map_to_simplified_genres [g] simplified_keywords)) 0
           | None => None
           end)
  /\ simplified
     = flat_map (fun g => fst (map_to_simplified_genres [g] simplified_keywords))
                genres
  /\ (forall g, List.length
                  (fst (map_to_simplified_genres [g] simplified_keywords)) = 1).
Proof.
  cbn zeta. rewrite map_to_simplified_genres_eq. cbn [fst].
  split; [|split; [|split]].
  - apply length_map.
  - intros i. rewrite nth_error_map.
    destruct (nth_error genres i) as [g|]; [|reflexivity].
    now rewrite map_to_simplified_genres_eq.
  - induction genres as [|g l IH]; [reflexivity|].
    cbn [map flat_map]. rewrite <- IH.
    now rewrite map_to_simplified_genres_eq.
  - intros g. now rewrite map_to_simplified_genres_eq.
Qed.

(** The unmapped count of a call never exceeds the number of entries. *)
Lemma unmapped_count_le (simplified_keywords : Taxonomy) (genres : list string) :
  snd (map_to_simplified_genres genres simplified_keywords) <= List.length genres.
Proof.
  rewrite map_to_simplified_genres_eq. cbn [snd].
  induction genres as [|g l IH]; cbn [map list_sum fold_right List.length].
  - lia.
  - assert (unmapped_entry simplified_keywords g <= 1).
    { unfold unmapped_entry.
      destruct (find_match _ _) as [m|]; [destruct (PyStr.truthy m)|]; lia. }
    change (fold_right Nat.add 0 (map (unmapped_entry simplified_keywords) l))
      with (list_sum (map (unmapped_entry simplified_keywords) l)).
    lia.
Qed.

(* ------------------------------------------------------------------ *)
(** ** Counters *)

Lemma pyval_eqb_eq (a b : pyval) : pyval_eqb a b = true <-> a = b.
Proof.
  destruct a, b; simpl; try (split; congruence).
  - rewrite String.eqb_eq. split; congruence.
  - rewrite Z.eqb_eq. split; congruence.
  - destruct (list_eq_dec string_dec l l0); split; congruence.
Qed.

Lemma pyval_eqb_refl (a : pyval) : pyval_eqb a a = true.
Proof. now apply pyval_eqb_eq. Qed.

Lemma pyval_eqb_sym (a b : pyval) : pyval_eqb a b = pyval_eqb b a.
Proof.
  destruct (pyval_eqb a b) eqn:E, (pyval_eqb b a) eqn:F; auto.
  - apply pyval_eqb_eq in E. subst. now rewrite pyval_eqb_refl in F.
  - apply pyval_eqb_eq in F. subst. now rewrite pyval_eqb_refl in E.
Qed.

Lemma count_total_cons (k : pyval) (n : nat) (c : Counter_t) :
  count_total ((k, n) :: c) = n + count_total c.
Proof. reflexivity. Qed.

Lemma count_total_incr (elem : pyval) (c : Counter_t) :
  count_total (counter_incr elem c) = count_total c + 1.
Proof.
  induction c as [|[k n] c IH]; cbn [counter_incr]; [reflexivity|].
  destruct (pyval_eqb k elem); rewrite !count_total_cons; lia.
Qed.

Lemma count_total_counter_of (l : list pyval) :
  forall c, count_total (counter_of l c) = count_total c + List.length l.
Proof.
  unfold counter_of.
  induction l as [|x l IH]; intros c; cbn [fold_left List.length]; [lia|].
  rewrite IH, count_total_incr. lia.
Qed.

Lemma counter_get_incr (elem key : pyval) (c : Counter_t) :
  counter_get (counter_incr elem c) key
  = counter_get c key + (if pyval_eqb key elem then 1 else 0).
Proof.
  induction c as [|[k n] c IH]; cbn [counter_incr counter_get].
  - rewrite (pyval_eqb_sym elem key). now destruct (pyval_eqb key elem).
  - destruct (pyval_eqb k elem) eqn:E; cbn [counter_get].
    + apply pyval_eqb_eq in E. subst k. rewrite (pyval_eqb_sym elem key).
      destruct (pyval_eqb key elem); lia.
    + destruct (pyval_eqb k key) eqn:F; [|exact IH].
      apply pyval_eqb_eq in F. subst k.
      rewrite E. lia.
Qed.

(** A counter maps each key to its number of occurrences. *)
Lemma counter_get_counter_of (key : pyval) (l : list pyval) :
  forall c, counter_get (counter_of l c) key
            = counter_get c key + occurrences key l.
Proof.
  unfold counter_of, occurrences.
  induction l as [|x l IH]; intros c; cbn [fold_left filter List.length]; [lia|].
  rewrite IH, counter_get_incr.
  destruct (pyval_eqb key x); cbn [List.length]; lia.
Qed.

Lemma Counter_loop_raise (l : list pyval) (e : exn) :
  fold_left
    (fun acc elem =>
       c <- acc ;;
       if hashable elem then Ok (counter_incr elem c) else Raise TypeError)
    l (Raise e) = Raise e.
Proof. induction l as [|x l IH]; cbn [fold_left bind]; auto. Qed.

Lemma Counter_loop_hashable (l : list pyval) :
  forallb hashable l = true ->
  forall c,
    fold_left
      (fun acc elem =>
         c <- acc ;;
         if hashable elem then Ok (counter_incr elem c) else Raise TypeError)
      l (Ok c) = Ok (counter_of l c).
Proof.
  induction l as [|x l IH]; cbn [forallb fold_left bind]; intros H c.
  - reflexivity.
  - apply andb_prop in H as [Hx Hl]. rewrite Hx. now apply IH.
Qed.

(** Hashing the first list in the iterable raises [TypeError]. *)
Lemma Counter_loop_unhashable (l : list pyval) :
  forallb hashable l = false ->
  forall c,
    fold_left
      (fun acc elem =>
         c <- acc ;;
         if hashable elem then Ok (counter_incr elem c) else Raise TypeError)
      l (Ok c) = Raise TypeError.
Proof.
  induction l as [|x l IH]; cbn [forallb fold_left bind]; intros H c.
  - discriminate.
  - destruct (hashable x); [now apply IH|]. apply Counter_loop_raise.
Qed.

Lemma Counter_hashable (l : list pyval) :
  forallb hashable l = true -> Counter l = Ok (counter_of l []).
Proof. intros H. now apply Counter_loop_hashable. Qed.

Lemma Counter_unhashable (l : list pyval) :
  forallb hashable l = false -> Counter l = Raise TypeError.
Proof. intros H. now apply Counter_loop_unhashable. Qed.

Lemma Counter_strings (l : list string) :
  Counter (map PStr l) = Ok (counter_of (map PStr l) []).
Proof.
  apply Counter_hashable. induction l; cbn [map forallb hashable andb]; auto.
Qed.

Lemma Counter_inv (l : list pyval) (c : Counter_t) :
  Counter l = Ok c -> forallb hashable l = true /\ c = counter_of l [].
Proof.
  intros H. destruct (forallb hashable l) eqn:E.
  - rewrite (Counter_hashable _ E) in H. split; congruence.
  - rewrite (Counter_unhashable _ E) in H. discriminate.
Qed.

(** The counts of a counter add up to the length of what was counted. *)
Lemma Counter_total (l : list pyval) (c : Counter_t) :
  Counter l = Ok c -> count_total c = List.length l.
Proof.
  intros H. apply Counter_inv in H as [_ ->].
  now rewrite count_total_counter_of.
Qed.

(* ------------------------------------------------------------------ *)
(** ** Rounding to binary64 *)

Section Rounding.

Local Open Scope Q_scope.

Lemma pow2_pos (e : Z) : 0 < Float.pow2 e.
Proof. unfold Float.pow2. apply Qpower_0_lt. reflexivity. Qed.

Lemma pow2_add (a b : Z) :
  Float.pow2 (a + b) == Float.pow2 a * Float.pow2 b.
Proof. unfold Float.pow2. apply Qpower_plus. discriminate. Qed.

Lemma pow2_Z (n : Z) : (0 <= n)%Z -> Float.pow2 n == inject_Z (2 ^ n).
Proof.
  intros H. unfold Float.pow2. symmetry. change 2 with (inject_Z 2).
  now apply Zpower_Qpower.
Qed.

(** The nearest integer is at most one half away. *)
Lemma nearest_int_bounds (y : Q) :
  y - (1 # 2) <= inject_Z (Float.nearest_int y)
  /\ inject_Z (Float.nearest_int y) <= y + (1 # 2).
Proof.
  unfold Float.nearest_int.
  pose proof (Qfloor_le y) as L. pose proof (Qlt_floor y) as U.
  rewrite inject_Z_plus in U. change (inject_Z 1) with 1 in U.
  destruct (Qcompare_spec (y - inject_Z (Qfloor y)) (1 # 2)) as [E|E|E].
  - destruct (Z.even (Qfloor y));
      [|rewrite inject_Z_plus; change (inject_Z 1) with 1]; lra.
  - lra.
  - rewrite inject_Z_plus; change (inject_Z 1) with 1. lra.
Qed.

Lemma floor_log2_le (x : Q) : 0 < x -> Float.pow2 (Float.floor_log2 x) <= x.
Proof.
  intros Hx. unfold Float.floor_log2.
  set (k := (Z.log2 (Qnum x) - Z.log2 (Zpos (Qden x)))%Z).
  destruct (Qle_bool (Float.pow2 k) x) eqn:E.
  - now apply Qle_bool_iff.
  - clear E.
    assert (Ha : (0 < Qnum x)%Z) by (unfold Qlt in Hx; cbn in Hx; lia).
    pose proof (Z.log2_spec _ Ha) as [La _].
    assert (Hb : (0 < Zpos (Qden x))%Z) by lia.
    pose proof (Z.log2_spec _ Hb) as [_ Ub].
    pose proof (Z.log2_nonneg (Qnum x)) as Na.
    pose proof (Z.log2_nonneg (Zpos (Qden x))) as Nb.
    replace (k - 1)%Z
      with (Z.log2 (Qnum x) + - (Z.succ (Z.log2 (Zpos (Qden x)))))%Z
      by (unfold k; lia).
    rewrite pow2_add. unfold Float.pow2 at 2. rewrite Qpower_opp.
    fold (Float.pow2 (Z.succ (Z.log2 (Zpos (Qden x))))).
    rewrite !pow2_Z by lia.
    set (A := (2 ^ Z.log2 (Qnum x))%Z) in *.
    set (B := (2 ^ Z.succ (Z.log2 (Zpos (Qden x))))%Z) in *.
    assert (HB : (0 < B)%Z) by lia.
    apply Qle_shift_div_r.
    + unfold Qlt. cbn. lia.
    + destruct x as [a b]. cbn in *. unfold Qle. cbn. nia.
Qed.

Lemma floor_log2_lt (x : Q) :
  0 < x -> x < Float.pow2 (Float.floor_log2 x + 1).
Proof.
  intros Hx. unfold Float.floor_log2.
  set (k := (Z.log2 (Qnum x) - Z.log2 (Zpos (Qden x)))%Z).
  destruct (Qle_bool (Float.pow2 k) x) eqn:E.
  - clear E.
    assert (Ha : (0 < Qnum x)%Z) by (unfold Qlt in Hx; cbn in Hx; lia).
    pose proof (Z.log2_spec _ Ha) as [_ Ua].
    assert (Hb : (0 < Zpos (Qden x))%Z) by lia.
    pose proof (Z.log2_spec _ Hb) as [Lb _].
    pose proof (Z.log2_nonneg (Qnum x)) as Na.
    pose proof (Z.log2_nonneg (Zpos (Qden x))) as Nb.
    replace (k + 1)%Z
      with (Z.succ (Z.log2 (Qnum x)) + - (Z.log2 (Zpos (Qden x))))%Z
      by (unfold k; lia).
    rewrite pow2_add. unfold Float.pow2 at 2. rewrite Qpower_opp.
    fold (Float.pow2 (Z.log2 (Zpos (Qden x)))).
    rewrite !pow2_Z by lia.
    set (A := (2 ^ Z.succ (Z.log2 (Qnum x)))%Z) in *.
    set (B := (2 ^ Z.log2 (Zpos (Qden x)))%Z) in *.
    assert (HB : (0 < B)%Z) by (unfold B; apply Z.pow_pos_nonneg; lia).
    apply Qlt_shift_div_l.
    + unfold Qlt. cbn. lia.
    + destruct x as [a b]. cbn in *. unfold Qlt. cbn. nia.
  - replace (k - 1 + 1)%Z with k by lia.
    apply Qnot_le_lt. intros C. apply Qle_bool_iff in C. congruence.
Qed.

(** The scaled value that is rounded to an integer has 53 bits. *)
Lemma nearest_significand (x : Q) :
  0 < x ->
  let e := (Float.floor_log2 x - 52)%Z in
  inject_Z (2 ^ 52) <= x / Float.pow2 e
  /\ x / Float.pow2 e < inject_Z (2 ^ 53).
Proof.
  intros Hx e. pose proof (pow2_pos e) as Pp.
  pose proof (floor_log2_le x Hx) as L.
  pose proof (floor_log2_lt x Hx) as U.
  replace (Float.floor_log2 x) with (52 + e)%Z in L by (unfold e; lia).
  replace (Float.floor_log2 x + 1)%Z with (53 + e)%Z in U by (unfold e; lia).
  rewrite pow2_add in L, U. rewrite (pow2_Z 52) in L by lia.
  rewrite (pow2_Z 53) in U by lia.
  split.
  - apply Qle_shift_div_l; [exact Pp | exact L].
  - apply Qlt_shift_div_r; [exact Pp | exact U].
Qed.

(** Rounding changes a positive number by at most the unit roundoff,
    relatively. *)
Lemma nearest_rel (x : Q) :
  0 < x ->
  (1 - Float.u) * x <= Float.nearest x /\ Float.nearest x <= (1 + Float.u) * x.
Proof.
  intros Hx. unfold Float.nearest.
  set (e := (Float.floor_log2 x - 52)%Z).
  pose proof (pow2_pos e) as Pp.
  destruct (nearest_significand x Hx) as [L _]. fold e in L.
  set (p := Float.pow2 e) in *.
  set (y := x / p) in *.
  assert (Y : x == y * p) by (unfold y; field; lra).
  destruct (nearest_int_bounds y) as [Lo Hi].
  set (m := inject_Z (Float.nearest_int y)) in *.
  unfold Float.u. change (inject_Z (2 ^ 52)) with (4503599627370496 # 1) in L.
  change (1 # 2 ^ 53) with (1 # 9007199254740992).
  split; nra.
Qed.

(** Rounding never passes an integer below [2 ^ 53]: such an integer
    is a binary64 number. *)
Lemma nearest_le_int (x : Q) (N : Z) :
  0 < x -> (N < 2 ^ 53)%Z -> x <= inject_Z N ->
  Float.nearest x <= inject_Z N.
Proof.
  intros Hx HN Hle. unfold Float.nearest.
  set (e := (Float.floor_log2 x - 52)%Z).
  pose proof (pow2_pos e) as Pp.
  destruct (nearest_significand x Hx) as [L _]. fold e in L.
  destruct (Z_lt_le_dec 0 e) as [Epos|Eneg].
  - exfalso.
    assert (P1 : Float.pow2 1 <= Float.pow2 e).
    { unfold Float.pow2. apply Qpower_le_compat_l; [lia | discriminate]. }
    change (Float.pow2 1) with 2 in P1.
    assert (HN' : inject_Z N < inject_Z (2 ^ 53))
      by (rewrite <- Zlt_Qlt; exact HN).
    change (inject_Z (2 ^ 52)) with (4503599627370496 # 1) in L.
    change (inject_Z (2 ^ 53)) with (9007199254740992 # 1) in HN'.
    set (p := Float.pow2 e) in *. set (y := x / p) in *.
    assert (Y : x == y * p) by (unfold y; field; lra).
    nra.
  - assert (Pinv : Float.pow2 e * Float.pow2 (- e) == 1).
    { rewrite <- pow2_add. replace (e + - e)%Z with 0%Z by lia. reflexivity. }
    rewrite (pow2_Z (- e)) in Pinv by lia.
    set (K := (N * 2 ^ (- e))%Z).
    assert (HK : inject_Z K == inject_Z N * inject_Z (2 ^ (- e)))
      by (unfold K; rewrite inject_Z_mult; reflexivity).
    set (p := Float.pow2 e) in *. set (y := x / p) in *.
    assert (Y : x == y * p) by (unfold y; field; lra).
    destruct (nearest_int_bounds y) as [_ Hi].
    assert (YK : y <= inject_Z K).
    { rewrite HK. set (r := inject_Z (2 ^ (- e))) in *.
      assert (0 < r) by nra. nra. }
    assert (MK : (Float.nearest_int y <= K)%Z).
    { assert (H2 : inject_Z (Float.nearest_int y) <= inject_Z K + (1 # 2))
        by lra.
      unfold Qle in H2. cbn in H2. lia. }
    rewrite Zle_Qle in MK. set (m := inject_Z (Float.nearest_int y)) in *.
    rewrite HK in MK. set (r := inject_Z (2 ^ (- e))) in *.
    nra.
Qed.

Lemma double_nonneg_cases (x : Q) :
  0 <= x ->
  (x == 0 /\ Float.double x == 0)
  \/ (0 < x /\ (Float.double x == x \/ Float.double x = Float.nearest x)).
Proof.
  intros Hx. unfold Float.double.
  destruct x as [a b]. cbn [Qnum].
  destruct a as [|a|a].
  - left. split; [reflexivity|]. now destruct (Qeq_bool 0 (0 # b)).
  - right. split; [reflexivity|].
    destruct (Qeq_bool (Float.nearest (Zpos a # b)) (Zpos a # b));
      [left; reflexivity | right; reflexivity].
  - exfalso. unfold Qle in Hx. cbn in Hx. lia.
Qed.

Lemma double_rel (x : Q) :
  0 <= x ->
  (1 - Float.u) * x <= Float.double x /\ Float.double x <= (1 + Float.u) * x.
Proof.
  intros Hx.
  destruct (double_nonneg_cases x Hx) as [[Z D]|[P [D|D]]].
  - rewrite D, Z. split; lra.
  - rewrite D. unfold Float.u. change (1 # 2 ^ 53) with (1 # 9007199254740992).
    split; nra.
  - rewrite D. now apply nearest_rel.
Qed.

Lemma double_le_int (x : Q) (N : Z) :
  0 <= x -> (N < 2 ^ 53)%Z -> x <= inject_Z N ->
  Float.double x <= inject_Z N.
Proof.
  intros Hx HN Hle.
  destruct (double_nonneg_cases x Hx) as [[Z D]|[P [D|D]]].
  - rewrite D. now rewrite <- Z.
  - now rewrite D.
  - rewrite D. now apply nearest_le_int.
Qed.

Lemma double_pos (x : Q) : 0 < x -> 0 < Float.double x.
Proof.
  intros Hx. destruct (double_rel x (Qlt_le_weak _ _ Hx)) as [L _].
  unfold Float.u in L. change (1 # 2 ^ 53) with (1 # 9007199254740992) in L.
  nra.
Qed.




(** A percentage of a count between 1 and the total lies above 0 and
    is at most 100. *)
Lemma percentage_range (n t : nat) :
  (0 < n)%nat -> (n <= t)%nat ->
  0 < percentage n t /\ percentage n t <= inject_Z 100.
Proof.
  intros Hn Ht. unfold percentage.
  assert (Tpos : 0 < inject_Z (Z.of_nat t)) by (unfold Qlt; cbn; lia).
  assert (Q1 : inject_Z (Z.of_nat n) / inject_Z (Z.of_nat t) <= inject_Z 1).
  { apply Qle_shift_div_r; [exact Tpos|]. rewrite Qmult_1_l.
    rewrite <- Zle_Qle. lia. }
  assert (Q0 : 0 < inject_Z (Z.of_nat n) / inject_Z (Z.of_nat t)).
  { apply Qlt_shift_div_l; [exact Tpos|]. rewrite Qmult_0_l.
    unfold Qlt. cbn. lia. }
  set (q := inject_Z (Z.of_nat n) / inject_Z (Z.of_nat t)) in *.
  pose proof (double_pos q Q0) as D0.
  pose proof (double_le_int q 1 (Qlt_le_weak _ _ Q0) eq_refl Q1) as D1.
  set (d := Float.double q) in *.
  change (inject_Z 1) with 1 in D1.
  split.
  - apply double_pos. change (inject_Z 100) with 100. nra.
  - apply double_le_int; [|reflexivity|]; change (inject_Z 100) with 100; nra.
Qed.

(** [(1 / 3) * 100] is the binary64 number [0x1.0aaaaaaaaaaaap+5],
    which prints as 33.33333333333333; [100 / 3] is the next one. *)
Example percentage_example :
  percentage 1 3 == 4691249611844266 # 140737488355328
  /\ Float.double (100 # 3) == 4691249611844267 # 140737488355328
  /\ percentage 1 2 = 100 # 2.
Proof. repeat split; vm_compute; reflexivity. Qed.

End Rounding.

(* ------------------------------------------------------------------ *)
(** ** Percentages *)

Section PercentageSums.

Local Open Scope Q_scope.




End PercentageSums.

(* ------------------------------------------------------------------ *)
(** ** Distribution and overlap *)

Section Distribution.

Variable File : string -> result (option FileType).
Variable simplified_keywords : Taxonomy.

(** With the flag off, the loop collects the raw genres of all files. *)
Lemma extend_loop_raw (audio_files : list string) :
  forall genres,
    fold_left (extend_step File false simplified_keywords) audio_files genres
    = genres ++ map PStr (flat_map (get_genre File) audio_files).
Proof.
  induction audio_files as [|f l IH]; intros genres; cbn [fold_left flat_map map].
  - now rewrite app_nil_r.
  - rewrite IH. unfold extend_step. now rewrite <- app_assoc, map_app.
Qed.

(** With the flag on, the loop collects, for each file, the two
    components of the tuple that the normaliser returns. *)
Lemma extend_loop_simple (audio_files : list string) :
  forall genres,
    fold_left (extend_step File true simplified_keywords) audio_files genres
    = genres
      ++ flat_map
           (fun file =>
              let r := map_to_simplified_genres (get_genre File file)
                                                simplified_keywords in
              [PList (fst r); PInt (Z.of_nat (snd r))])
           audio_files.
Proof.
  induction audio_files as [|f l IH]; intros genres; cbn [fold_left flat_map].
  - now rewrite app_nil_r.
  - rewrite IH. unfold extend_step. now rewrite <- app_assoc.
Qed.

(** With the flag on and at least one file, the call raises. *)
Lemma distribution_simple_raises (audio_files : list string) :
  audio_files <> [] ->
  calculate_genre_distribution File audio_files true simplified_keywords
  = Raise TypeError.
Proof.
  destruct audio_files as [|f l]; [congruence|]. intros _.
  unfold calculate_genre_distribution.
  rewrite extend_loop_simple, Counter_unhashable; reflexivity.
Qed.

(** With the flag off the call returns: three components when no genre
    occurs, two otherwise. *)
Lemma distribution_raw_returns (audio_files : list string) :
  let genres := map PStr (flat_map (get_genre File) audio_files) in
  calculate_genre_distribution File audio_files false simplified_keywords
  = if List.length genres =? 0
    then Ok (Tuple3 (counter_of genres []) [] 0)
    else Ok (Tuple2 (counter_of genres [])
                    (percentages (counter_of genres []) (List.length genres))).
Proof.
  unfold calculate_genre_distribution.
  rewrite extend_loop_raw. cbn [app]. now rewrite Counter_strings.
Qed.

Lemma distribution_inv (audio_files : list string) (use_simple_genres : bool)
    (d : distribution) :
  calculate_genre_distribution File audio_files use_simple_genres
                               simplified_keywords = Ok d ->
  (count_total (dist_count d) = 0 /\ d = Tuple3 (dist_count d) [] 0)
  \/ (0 < count_total (dist_count d)
      /\ d = Tuple2 (dist_count d)
                    (percentages (dist_count d) (count_total (dist_count d)))).
Proof.
  unfold calculate_genre_distribution.
  set (genres := fold_left _ audio_files []).
  destruct (Counter genres) as [c|e] eqn:C; cbn [bind]; [|discriminate].
  pose proof (Counter_total _ _ C) as T.
  destruct (List.length genres =? 0) eqn:Z; intros [= <-]; cbn [dist_count].
  - left. apply Nat.eqb_eq in Z. split; [lia | reflexivity].
  - right. apply Nat.eqb_neq in Z. split; [lia | now rewrite T].
Qed.

Lemma overlap_loop (audio_files : list string) :
  forall n,
    fold_left
      (fun overlap_count file =>
         let genres := get_genre File file in
         if 1 <? List.length genres then overlap_count + 1 else overlap_count)
      audio_files n
    = n + List.length
            (filter (fun file => 1 <? List.length (get_genre File file))
                    audio_files).
Proof.
  induction audio_files as [|f l IH]; intros n; cbn [fold_left filter].
  - cbn. lia.
  - rewrite IH. cbv zeta.
    destruct (1 <? List.length (get_genre File f)); cbn [List.length]; lia.
Qed.

Lemma calculate_overlap_eq (audio_files : list string) :
  calculate_overlap File audio_files
  = List.length
      (filter (fun file => 1 <? List.length (get_genre File file)) audio_files).
Proof. unfold calculate_overlap. now rewrite overlap_loop. Qed.

(** [perform_analysis] always returns: its list holds strings only. *)
Lemma perform_analysis_eq (audio_files : list string) (use_simple_genres : bool) :
  let raw := flat_map (get_genre File) audio_files in
  let r := if use_simple_genres
           then map_to_simplified_genres raw simplified_keywords
           else (raw, 0) in
  let c := counter_of (map PStr (fst r)) [] in
  perform_analysis File audio_files use_simple_genres simplified_keywords
  = Ok {| genre_count := c;
          genre_percentage := percentages c (List.length (fst r));
          total_tracks := List.length (fst r);
          overlap_count := calculate_overlap File audio_files;
          unmapped_count := snd r |}.
Proof.
  cbv zeta. unfold perform_analysis.
  destruct (if use_simple_genres then _ else _) as [genres unmapped].
  now rewrite Counter_strings.
Qed.

End Distribution.

(** C1. On the example library (file A tagged "Classic Rock", file B
    "Deep House", file C untagged) with the flag on,
    [calculate_genre_distribution] extends its list with the pair that
    the normaliser returns, not with the simplified list, and counting
    raises [TypeError]: no genre count is produced.  The sibling code of
    [perform_analysis] unpacks the pair and counts rock 1,
    electronic 1, total 2. *)
Theorem distribution_simplify_example :
  calculate_genre_distribution Example.File Example.files true Example.taxonomy
  = Raise TypeError
  /\ fold_left (extend_step Example.File true Example.taxonomy) Example.files []
     = [PList ["rock"]; PInt 0; PList ["electronic"]; PInt 0;
        PList []; PInt 0]
  /\ perform_analysis Example.File Example.files true Example.taxonomy
     = Ok {| genre_count := [(PStr "rock", 1); (PStr "electronic", 1)];
             genre_percentage := [(PStr "rock", (100 # 2)%Q);
                                  (PStr "electronic", (100 # 2)%Q)];
             total_tracks := 2;
             overlap_count := 0;
             unmapped_count := 0 |}.
Proof. repeat split; vm_compute; reflexivity. Qed.

(** C2. With the flag off and one genre occurrence or more,
    [calculate_genre_distribution] returns a tuple of two components
    (count and percentages), not three; it returns three components,
    with an empty percentage mapping and total 0, only when no genre
    occurs. *)
Theorem distribution_returns_pair_example :
  calculate_genre_distribution Example.File Example.files false Example.taxonomy
  = Ok (Tuple2 [(PStr "classic rock", 1); (PStr "deep house", 1)]
               [(PStr "classic rock", (100 # 2)%Q);
                (PStr "deep house", (100 # 2)%Q)])
  /\ calculate_genre_distribution Example.File ["/music/C.ogg"] false
                                  Example.taxonomy
     = Ok (Tuple3 [] [] 0).
Proof. split; vm_compute; reflexivity. Qed.

(** Whenever the call returns and no genre occurs, the result has three
    components, an empty percentage mapping and total 0; nothing is
    divided. *)
Lemma distribution_zero_total
    (File : string -> result (option FileType)) (audio_files : list string)
    (use_simple_genres : bool) (simplified_keywords : Taxonomy)
    (d : distribution) :
  calculate_genre_distribution File audio_files use_simple_genres
                               simplified_keywords = Ok d ->
  count_total (dist_count d) = 0 ->
  d = Tuple3 (dist_count d) [] 0.
Proof.
  intros H Z. destruct (distribution_inv _ _ _ _ _ H) as [[_ E]|[P _]];
    [exact E | lia].
Qed.

(** Whenever the call returns and a genre occurs, the result has two
    components only. *)
Lemma distribution_positive_total_arity
    (File : string -> result (option FileType)) (audio_files : list string)
    (use_simple_genres : bool) (simplified_keywords : Taxonomy)
    (d : distribution) :
  calculate_genre_distribution File audio_files use_simple_genres
                               simplified_keywords = Ok d ->
  0 < count_total (dist_count d) ->
  dist_arity d = 2.
Proof.
  intros H P. destruct (distribution_inv _ _ _ _ _ H) as [[Z _]|[_ E]];
    [lia | now rewrite E].
Qed.



(** C5. [calculate_overlap] returns the number of files whose raw genre
    list has more than one entry: each file adds 1 if its list is
    longer than 1 and 0 otherwise, and the overlap that
    [perform_analysis] reports is the same number with the flag on and
    off. *)
Theorem overlap_counts_multi_genre_files
    (File : string -> result (option FileType)) (audio_files : list string) :
  calculate_overlap File audio_files
  = List.length
      (filter (fun file => 1 <? List.length (get_genre File file)) audio_files)
  /\ (forall before file after,
         calculate_overlap File (before ++ file :: after)
         = calculate_overlap File before
           + (if 1 <? List.length (get_genre File file) then 1 else 0)
           + calculate_overlap File after)
  /\ (forall simplified_keywords use_simple_genres,
         exists a,
           perform_analysis File audio_files use_simple_genres
                            simplified_keywords = Ok a
           /\ overlap_count a = calculate_overlap File audio_files).
Proof.
  split; [|split].
  - apply calculate_overlap_eq.
  - intros before file after. rewrite !calculate_overlap_eq.
    rewrite filter_app, length_app. cbn [filter].
    destruct (1 <? List.length (get_genre File file)); cbn [List.length]; lia.
  - intros kw use. rewrite perform_analysis_eq. eexists. split; reflexivity.
Qed.

(** C10. Normalising the concatenation of the files' raw genre lists,
    as [perform_analysis] does, gives the concatenation of the lists
    obtained file by file (so the same multiset and the same counter)
    and an unmapped count equal to the sum of the counts of the
    per-file calls. *)
Theorem flattened_normalisation_agrees
    (File : string -> result (option FileType)) (audio_files : list string)
    (simplified_keywords : Taxonomy) :
  let per_file :=
    map (fun file => map_to_simplified_genres (get_genre File file)
                                              simplified_keywords)
        audio_files in
  let flattened :=
    map_to_simplified_genres (flat_map (get_genre File) audio_files)
                             simplified_keywords in
  fst flattened = List.concat (map fst per_file)
  /\ Permutation (fst flattened) (List.concat (map fst per_file))
  /\ Counter (map PStr (fst flattened))
     = Counter (map PStr (List.concat (map fst per_file)))
  /\ snd flattened = list_sum (map snd per_file)
  /\ exists a,
       perform_analysis File audio_files true simplified_keywords = Ok a
       /\ Counter (map PStr (List.concat (map fst per_file))) = Ok (genre_count a)
       /\ unmapped_count a = list_sum (map snd per_file).
Proof.
  cbv zeta.
  assert (E : map_to_simplified_genres (flat_map (get_genre File) audio_files)
                                       simplified_keywords
              = (List.concat (map fst
                   (map (fun file => map_to_simplified_genres
                                       (get_genre File file) simplified_keywords)
                        audio_files)),
                 list_sum (map snd
                   (map (fun file => map_to_simplified_genres
                                       (get_genre File file) simplified_keywords)
                        audio_files)))).
  { rewrite map_to_simplified_genres_eq.
    induction audio_files as [|f l IH]; [reflexivity|].
    cbn [flat_map map List.concat]. rewrite !map_app, list_sum_app.
    injection IH as -> ->. rewrite map_to_simplified_genres_eq.
    reflexivity. }
  rewrite perform_analysis_eq. rewrite E. cbn [fst snd].
  repeat split; auto.
  eexists. split; [reflexivity|]. cbn [genre_count unmapped_count].
  split; [apply Counter_strings | reflexivity].
Qed.

(* ------------------------------------------------------------------ *)
(** ** Tag extraction *)

Lemma tags_get_truthy (t : Tags) (key : string) (v : tag_value) :
  tags_get t key = Some v -> audio_truthy {| tags := Some t |} = true.
Proof. destruct t; [discriminate | reflexivity]. Qed.

Lemma get_genre_loop_eq (t : Tags) (tag_keys : list string) :
  get_genre_loop {| tags := Some t |} tag_keys
  = match first_present t tag_keys with
    | Some (TagList []) => Raise IndexError
    | Some (TagList (first :: _)) => Ok (Some (genre_pieces first))
    | Some (TagOther text) => Ok (Some (genre_pieces text))
    | None => Ok None
    end.
Proof.
  induction tag_keys as [|key rest IH];
    cbn [get_genre_loop first_present tags tags_contains tags_getitem bind];
    [reflexivity|].
  destruct (tags_get t key) as [[[|first items]|text]|]; cbn [bind];
    auto.
Qed.

(* ------------------------------------------------------------------ *)
(** ** The entry point *)

(** An unparseable taxonomy file: the parser's error leaves [main],
    and nothing is reported. *)
Lemma main_malformed_raises :
  main unit Example.logic "/plugins/SMGA" Example.malformed
  = ([LogInfo "SMGA Plugin initialized."],
     Raise (JSONDecodeError "Expecting value: line 1 column 1 (char 0)"))
  /\ ~ (exists widget,
          snd (main unit Example.logic "/plugins/SMGA" Example.malformed)
          = Ok widget).
Proof.
  split; [reflexivity|]. intros [w H]. vm_compute in H. discriminate.
Qed.

(** C3, amended. A missing taxonomy file makes [main] log the
    not-found error, show it in a message box and return [None], with
    no exception raised; a file that exists but cannot be parsed is not
    handled: the parser's error is raised by [main] itself, and neither
    logged nor shown; a file that parses hands its taxonomy to
    [smga_main_logic]. *)
Theorem main_reports_missing_file_only
    (Widget : Type)
    (smga_main_logic : Taxonomy -> list event * result (option Widget))
    (plugin_dir : string) :
  (forall parse,
      main Widget smga_main_logic plugin_dir
           {| path_exists := false; json_load := parse |}
      = ([LogInfo "SMGA Plugin initialized.";
          LogError (not_found_message plugin_dir);
          MessageBoxCritical "Error" (not_found_message plugin_dir)],
         Ok None))
  /\ (forall msg,
         main Widget smga_main_logic plugin_dir
              {| path_exists := true; json_load := Raise (JSONDecodeError msg) |}
         = ([LogInfo "SMGA Plugin initialized."],
            Raise (JSONDecodeError msg)))
  /\ (forall taxonomy,
         main Widget smga_main_logic plugin_dir
              {| path_exists := true; json_load := Ok taxonomy |}
         = (LogInfo "SMGA Plugin initialized."
              :: fst (smga_main_logic taxonomy),
            snd (smga_main_logic taxonomy))).
Proof.
  split; [|split].
  - reflexivity.
  - reflexivity.
  - intros taxonomy. unfold main, load_simplified_genres.
    cbn [path_exists json_load negb].
    now destruct (smga_main_logic taxonomy).
Qed.

(* ------------------------------------------------------------------ *)
(** ** Discovery *)

Lemma has_audio_extension_spec (file : string) :
  has_audio_extension file = true <-> allowed_extension file.
Proof.
  unfold has_audio_extension, allowed_extension. cbn [snd OsPath.splitext].
  rewrite existsb_exists. split.
  - intros (x & Hin & E). apply String.eqb_eq in E. now subst.
  - intros H. eexists. split; [exact H | apply String.eqb_refl].
Qed.

Lemma inner_loop_eq (root : string) (files : list string) :
  forall audio_files,
    fold_left
      (fun audio_files file =>
         if has_audio_extension file
         then audio_files ++ [OsPath.join root file]
         else audio_files)
      files audio_files
    = audio_files ++ map (OsPath.join root) (filter has_audio_extension files).
Proof.
  induction files as [|f l IH]; intros acc; cbn [fold_left filter].
  - now rewrite app_nil_r.
  - rewrite IH. destruct (has_audio_extension f); [|reflexivity].
    now rewrite <- app_assoc.
Qed.

Lemma outer_loop_eq (walk : list (string * list string * list string)) :
  forall audio_files,
    fold_left
      (fun audio_files '(root, _, files) =>
         fold_left
           (fun audio_files file =>
              if has_audio_extension file
              then audio_files ++ [OsPath.join root file]
              else audio_files)
           files audio_files)
      walk audio_files
    = audio_files
      ++ flat_map (fun '(root, _, files) =>
                     map (OsPath.join root) (filter has_audio_extension files))
                  walk.
Proof.
  induction walk as [|[[root dirs] files] l IH]; intros acc;
    cbn [fold_left flat_map].
  - now rewrite app_nil_r.
  - rewrite IH, inner_loop_eq. now rewrite <- app_assoc.
Qed.

(** The result lists, directory by directory in the order of the walk,
    the joined paths of the files that pass the extension test. *)
Lemma get_audio_files_eq (directory : string) (t : tree) :
  get_audio_files directory t
  = flat_map (fun '(root, _, files) =>
                map (OsPath.join root) (filter has_audio_extension files))
             (os_walk directory t).
Proof. unfold get_audio_files. now rewrite outer_loop_eq. Qed.

Lemma os_walk_reachable (t : tree) :
  forall top root dirs files file,
    In (root, dirs, files) (os_walk top t) -> In file files ->
    reachable top t root file.
Proof.
  induction t as [name fs subdirs IH] using tree_induction.
  intros top root dirs files file Hin Hf. cbn [os_walk] in Hin.
  destruct Hin as [E|Hin].
  - injection E as <- _ <-. now apply reach_here.
  - apply in_flat_map in Hin as (sub & Hsub & Hin).
    rewrite Forall_forall in IH.
    eapply reach_below; [exact Hsub|]. eapply IH; eauto.
Qed.

Lemma reachable_os_walk (top : string) (t : tree) (root file : string) :
  reachable top t root file ->
  exists dirs files, In (root, dirs, files) (os_walk top t) /\ In file files.
Proof.
  induction 1 as [top name files subdirs file Hf
                 |top name files subdirs sub root file Hsub _ IH].
  - exists (map dirname subdirs), files. split; [now left | exact Hf].
  - destruct IH as (dirs & fs & Hin & Hf). exists dirs, fs.
    split; [|exact Hf]. cbn [os_walk]. right.
    apply in_flat_map. now exists sub.
Qed.

Lemma reachable_sep_free (top : string) (t : tree) (root file : string) :
  reachable top t root file -> names_ok t = true -> sep_free file = true.
Proof.
  induction 1 as [top name files subdirs file Hf
                 |top name files subdirs sub root file Hsub _ IH];
    cbn [names_ok]; intros H; apply andb_prop in H as [Hfiles Hsubs].
  - rewrite forallb_forall in Hfiles. now apply Hfiles.
  - rewrite forallb_forall in Hsubs. apply IH. now apply Hsubs.
Qed.

Lemma after_last_app_some (c : ascii) (a b r : string) :
  PyStr.after_last c b = Some r -> PyStr.after_last c (a ++ b) = Some r.
Proof.
  intros H. induction a as [|x a IH]; [exact H|].
  cbn [append PyStr.after_last]. now rewrite IH.
Qed.

Lemma after_last_app_none (c : ascii) (a b : string) :
  PyStr.after_last c b = None ->
  PyStr.after_last c (a ++ b)
  = option_map (fun r => (r ++ b)%string) (PyStr.after_last c a).
Proof.
  intros H. induction a as [|x a IH]; [exact H|].
  cbn [append PyStr.after_last]. rewrite IH.
  destruct (PyStr.after_last c a); [reflexivity|].
  now destruct (Ascii.eqb x c).
Qed.

Lemma endswith_after_last (c : ascii) (a : string) :
  PyStr.endswith c a = true -> PyStr.after_last c a = Some ""%string.
Proof.
  induction a as [|x a IH]; [discriminate|].
  destruct a as [|y a].
  - cbn. now intros ->.
  - intros H. change (PyStr.endswith c (String y a) = true) in H.
    cbn [PyStr.after_last] in *. now rewrite (IH H).
Qed.

Lemma sep_free_startswith (b : string) :
  sep_free b = true -> PyStr.startswith OsPath.sep b = false.
Proof.
  unfold sep_free. destruct b as [|x b]; [reflexivity|].
  cbn [PyStr.after_last PyStr.startswith].
  destruct (PyStr.after_last OsPath.sep b); [discriminate|].
  now destruct (Ascii.eqb x OsPath.sep).
Qed.

Lemma sep_free_after_last (b : string) :
  sep_free b = true -> PyStr.after_last OsPath.sep b = None.
Proof. unfold sep_free. now destruct (PyStr.after_last OsPath.sep b). Qed.

(** Joining a directory and a file name leaves the name as last
    component. *)
Lemma basename_join (a b : string) :
  sep_free b = true -> OsPath.basename (OsPath.join a b) = b.
Proof.
  intros H. pose proof (sep_free_after_last _ H) as N.
  unfold OsPath.join. rewrite (sep_free_startswith _ H).
  unfold OsPath.basename.
  destruct a as [|x a].
  - cbn [PyStr.truthy negb orb append]. now rewrite N.
  - cbn [PyStr.truthy negb orb].
    destruct (PyStr.endswith OsPath.sep (String x a)) eqn:E.
    + rewrite (after_last_app_none _ _ _ N), (endswith_after_last _ _ E).
      reflexivity.
    + rewrite (after_last_app_some _ _ _ b); [reflexivity|].
      cbn [PyStr.after_last]. rewrite N. reflexivity.
Qed.

Lemma ext_join (a b : string) :
  sep_free b = true -> OsPath.ext (OsPath.join a b) = OsPath.ext b.
Proof.
  intros H. unfold OsPath.ext. rewrite (basename_join _ _ H).
  unfold OsPath.basename at 1. now rewrite (sep_free_after_last _ H).
Qed.

Lemma has_audio_extension_join (a b : string) :
  sep_free b = true ->
  has_audio_extension (OsPath.join a b) = has_audio_extension b.
Proof.
  intros H. unfold has_audio_extension. cbn [OsPath.splitext snd].
  now rewrite (ext_join _ _ H).
Qed.

(** C9. [get_audio_files] returns exactly the files met by the
    recursive traversal whose extension, lower-cased, is in the
    allow-list: a path is returned if and only if it joins the
    directory and the name of such a file, so every returned path comes
    from an allowed file and no allowed file is left out; when file
    names hold no path separator, every returned path itself has an
    allowed extension. *)
Theorem get_audio_files_exact (directory : string) (t : tree) :
  (forall path,
      In path (get_audio_files directory t)
      <-> exists root file,
            reachable directory t root file
            /\ allowed_extension file
            /\ path = OsPath.join root file)
  /\ (names_ok t = true ->
      forall path, In path (get_audio_files directory t) ->
                   allowed_extension path).
Proof.
  assert (A : forall path,
             In path (get_audio_files directory t)
             <-> exists root file,
                   reachable directory t root file
                   /\ allowed_extension file
                   /\ path = OsPath.join root file).
  { intros path. rewrite get_audio_files_eq, in_flat_map. split.
    - intros ([[root dirs] files] & Hw & Hp).
      apply in_map_iff in Hp as (file & <- & Hf).
      apply filter_In in Hf as [Hf He].
      exists root, file. repeat split.
      + eapply os_walk_reachable; eauto.
      + now apply has_audio_extension_spec.
    - intros (root & file & Hr & He & ->).
      destruct (reachable_os_walk _ _ _ _ Hr) as (dirs & files & Hw & Hf).
      exists (root, dirs, files). split; [exact Hw|].
      apply in_map, filter_In. split; [exact Hf|].
      now apply has_audio_extension_spec. }
  split; [exact A|].
  intros Hok path Hin. apply A in Hin as (root & file & Hr & He & ->).
  apply has_audio_extension_spec.
  rewrite has_audio_extension_join; [now apply has_audio_extension_spec|].
  eapply reachable_sep_free; eauto.
Qed.

Lemma get_audio_files_exact_witness :
  names_ok Example.music = true
  /\ get_audio_files "/music" Example.music
     = ["/music/A.mp3"; "/music/live/B.FLAC"; "/music/live/c.Ogg";
        "/music/x.wav/deep/f.wma"; "/music/x.wav/deep/g.M4A"]
  /\ allowed_extension "/music/live/B.FLAC".
Proof.
  split; [reflexivity|]. split; [reflexivity|].
  apply (proj2 (get_audio_files_exact "/music" Example.music) eq_refl).
  vm_compute. tauto.
Defined.

(* ------------------------------------------------------------------ *)
(** ** Genre lists: shape of the extracted entries *)

Lemma tolower_isspace (c : ascii) :
  PyStr.isspace (PyStr.tolower c) = PyStr.isspace c.
Proof. destruct c as [[] [] [] [] [] [] [] []]; reflexivity. Qed.

Lemma tolower_semicolon (c : ascii) :
  Ascii.eqb (PyStr.tolower c) ";" = Ascii.eqb c ";".
Proof. destruct c as [[] [] [] [] [] [] [] []]; reflexivity. Qed.

Lemma lower_lstrip (s : string) :
  PyStr.lstrip (PyStr.lower s) = PyStr.lower (PyStr.lstrip s).
Proof.
  induction s as [|c s IH]; [reflexivity|].
  cbn [PyStr.lower PyStr.lstrip]. rewrite tolower_isspace.
  now destruct (PyStr.isspace c).
Qed.

Lemma lower_rstrip (s : string) :
  PyStr.rstrip (PyStr.lower s) = PyStr.lower (PyStr.rstrip s).
Proof.
  induction s as [|c s IH]; [reflexivity|].
  cbn [PyStr.lower]. rewrite !rstrip_unfold, IH, tolower_isspace.
  destruct (PyStr.rstrip s); cbn [PyStr.lower]; [|reflexivity].
  now destruct (PyStr.isspace c).
Qed.

(** Trimming and lower-casing commute. *)
Lemma lower_strip (s : string) :
  PyStr.strip (PyStr.lower s) = PyStr.lower (PyStr.strip s).
Proof. unfold PyStr.strip. now rewrite lower_lstrip, lower_rstrip. Qed.

Lemma rstrip_idempotent (s : string) :
  PyStr.rstrip (PyStr.rstrip s) = PyStr.rstrip s.
Proof.
  induction s as [|c s IH]; [reflexivity|].
  rewrite rstrip_unfold. destruct (PyStr.rstrip s) as [|y r] eqn:R.
  - destruct (PyStr.isspace c) eqn:E; [reflexivity|].
    rewrite rstrip_unfold. cbn [PyStr.rstrip]. now rewrite E.
  - rewrite rstrip_unfold, IH. reflexivity.
Qed.

Lemma lstrip_fixed (s : string) :
  match s with
  | String c _ => PyStr.isspace c = false
  | EmptyString => True
  end ->
  PyStr.lstrip s = s.
Proof. destruct s as [|c s]; [reflexivity|]. cbn. now intros ->. Qed.

Lemma strip_idempotent (s : string) :
  PyStr.strip (PyStr.strip s) = PyStr.strip s.
Proof.
  unfold PyStr.strip at 1.
  rewrite (lstrip_fixed (PyStr.strip s)).
  - unfold PyStr.strip. apply rstrip_idempotent.
  - unfold PyStr.strip. apply rstrip_head, lstrip_head.
Qed.

Lemma count_char_lower_semicolon (s : string) :
  count_char ";" (PyStr.lower s) = count_char ";" s.
Proof.
  induction s as [|c s IH]; [reflexivity|].
  cbn [PyStr.lower count_char]. now rewrite tolower_semicolon, IH.
Qed.

Lemma count_char_lstrip (c : ascii) (s : string) :
  count_char c (PyStr.lstrip s) <= count_char c s.
Proof.
  induction s as [|x s IH]; [reflexivity|].
  cbn [PyStr.lstrip]. destruct (PyStr.isspace x); [|reflexivity].
  cbn [count_char]. lia.
Qed.

Lemma count_char_rstrip (c : ascii) (s : string) :
  count_char c (PyStr.rstrip s) <= count_char c s.
Proof.
  induction s as [|x s IH]; [reflexivity|].
  rewrite rstrip_unfold. destruct (PyStr.rstrip s) as [|y r].
  - destruct (PyStr.isspace x); cbn [count_char] in *; lia.
  - cbn [count_char] in *. lia.
Qed.

Lemma count_char_strip (c : ascii) (s : string) :
  count_char c (PyStr.strip s) <= count_char c s.
Proof.
  unfold PyStr.strip.
  pose proof (count_char_rstrip c (PyStr.lstrip s)).
  pose proof (count_char_lstrip c s). lia.
Qed.

(** A split has one piece more than the text has separators, and no
    piece holds the separator. *)
Lemma split_length (sep : ascii) (s : string) :
  List.length (PyStr.split sep s) = S (count_char sep s).
Proof.
  induction s as [|c s IH]; [reflexivity|].
  cbn [PyStr.split count_char]. destruct (Ascii.eqb c sep).
  - cbn [List.length]. now rewrite IH.
  - destruct (PyStr.split sep s) as [|p rest]; cbn [List.length] in *; lia.
Qed.

Lemma split_pieces (sep : ascii) (s : string) :
  Forall (fun piece => count_char sep piece = 0) (PyStr.split sep s).
Proof.
  induction s as [|c s IH]; [repeat constructor|].
  cbn [PyStr.split]. destruct (Ascii.eqb c sep) eqn:E.
  - constructor; [reflexivity | exact IH].
  - destruct (PyStr.split sep s) as [|p rest].
    + repeat constructor. cbn [count_char]. now rewrite E.
    + inversion IH as [|? ? Hp Hrest]; subst. constructor; [|exact Hrest].
      cbn [count_char]. now rewrite E, Hp.
Qed.

Section Extraction.

Variable File : string -> result (option FileType).

(** [get_genre] in terms of the text it splits. *)
Lemma get_genre_tag_text (file_path : string) :
  get_genre File file_path
  = match tag_text File file_path with
    | Some text => genre_pieces text
    | None => []
    end.
Proof.
  unfold get_genre, tag_text.
  destruct (File file_path) as [[[[t|]]|]|e]; cbn [bind try_except_pass tags];
    try reflexivity.
  destruct (audio_truthy {| tags := Some t |}) eqn:T.
  - rewrite get_genre_loop_eq.
    destruct (first_present t _) as [[[|first items]|text]|]; reflexivity.
  - destruct t as [|kv t]; [reflexivity | discriminate].
Qed.

Lemma get_genre_length_tag_text (file_path : string) :
  List.length (get_genre File file_path)
  = match tag_text File file_path with
    | Some text => List.length (PyStr.split ";" text)
    | None => 0
    end.
Proof.
  rewrite get_genre_tag_text. destruct (tag_text File file_path); [|reflexivity].
  unfold genre_pieces. now rewrite length_map.
Qed.

(** A file with a genre tag yields one entry more than its tag text has
    semicolons, so at least one entry, also for an empty text; a file
    without one yields none. *)
Theorem get_genre_length (file_path : string) :
  List.length (get_genre File file_path)
  = match tag_text File file_path with
    | Some text => S (count_char ";" text)
    | None => 0
    end.
Proof.
  rewrite get_genre_tag_text. destruct (tag_text File file_path); [|reflexivity].
  unfold genre_pieces. now rewrite length_map, split_length.
Qed.

(** Every extracted entry is in normal form: lower-casing it or
    trimming it changes nothing, it holds no semicolon, and the
    normaliser's [lower().strip()] leaves it as it is. *)
Theorem get_genre_entries_normalised (file_path genre : string) :
  In genre (get_genre File file_path) ->
  PyStr.lower genre = genre
  /\ PyStr.strip genre = genre
  /\ count_char ";" genre = 0
  /\ PyStr.strip (PyStr.lower genre) = genre.
Proof.
  rewrite get_genre_tag_text.
  destruct (tag_text File file_path) as [text|]; [|intros []].
  unfold genre_pieces. intros H.
  apply in_map_iff in H as (piece & <- & Hin).
  assert (L : PyStr.lower (PyStr.lower (PyStr.strip piece))
              = PyStr.lower (PyStr.strip piece)) by apply lower_idempotent.
  assert (S : PyStr.strip (PyStr.lower (PyStr.strip piece))
              = PyStr.lower (PyStr.strip piece))
    by now rewrite lower_strip, strip_idempotent.
  repeat split; auto.
  - rewrite count_char_lower_semicolon.
    pose proof (split_pieces ";" text) as F. rewrite Forall_forall in F.
    pose proof (F _ Hin). pose proof (count_char_strip ";" piece). lia.
  - now rewrite L.
Qed.

End Extraction.

Lemma is_white_isspace (c : ascii) : is_white c = PyStr.isspace c.
Proof. destruct c as [[] [] [] [] [] [] [] []]; reflexivity. Qed.

Lemma lower_case_of_tolower (c : ascii) : lower_case_of c = PyStr.tolower c.
Proof. destruct c as [[] [] [] [] [] [] [] []]; reflexivity. Qed.

Lemma lowered_lower (s : string) : lowered s (PyStr.lower s).
Proof.
  induction s as [|c s IH]; [exact I|].
  cbn [PyStr.lower lowered]. split; [|exact IH].
  symmetry. apply lower_case_of_tolower.
Qed.

Lemma lstrip_lead (s : string) :
  exists lead, s = (lead ++ PyStr.lstrip s)%string /\ all_white lead = true.
Proof.
  induction s as [|c s (lead & E & W)]; [now exists ""%string|].
  cbn [PyStr.lstrip]. destruct (PyStr.isspace c) eqn:S.
  - exists (String c lead). cbn [append all_white].
    rewrite is_white_isspace, S, W. split; [now rewrite <- E | reflexivity].
  - now exists ""%string.
Qed.

Lemma rstrip_trail (s : string) :
  exists trail, s = (PyStr.rstrip s ++ trail)%string /\ all_white trail = true.
Proof.
  induction s as [|c s (trail & E & W)]; [now exists ""%string|].
  rewrite rstrip_unfold. destruct (PyStr.rstrip s) as [|y r] eqn:R.
  - destruct (PyStr.isspace c) eqn:S.
    + exists (String c s). cbn [append all_white].
      rewrite is_white_isspace, S. cbn [andb]. split; [reflexivity|].
      cbn [append] in E. rewrite E. exact W.
    + exists trail. cbn [append] in *. split; [now rewrite <- E | exact W].
  - exists trail. cbn [append] in *. split; [now rewrite <- E | exact W].
Qed.

Lemma rstrip_last_char (s : string) : not_white (last_char (PyStr.rstrip s)).
Proof.
  induction s as [|c s IH]; [exact I|].
  rewrite rstrip_unfold. destruct (PyStr.rstrip s) as [|y r] eqn:R.
  - destruct (PyStr.isspace c) eqn:S; [exact I|].
    cbn [last_char not_white]. now rewrite is_white_isspace.
  - exact IH.
Qed.

(** [PyStr.strip] trims. *)
Lemma strip_trimmed (s : string) : trimmed s (PyStr.strip s).
Proof.
  unfold trimmed, PyStr.strip. split; [|split].
  - destruct (lstrip_lead s) as (lead & E & W).
    destruct (rstrip_trail (PyStr.lstrip s)) as (trail & E' & W').
    exists lead, trail. split; [|now split].
    rewrite E at 1. now rewrite E' at 1.
  - pose proof (rstrip_head _ (lstrip_head s)) as H.
    destruct (PyStr.rstrip (PyStr.lstrip s)) as [|c r]; [exact I|].
    cbn [first_char not_white]. now rewrite is_white_isspace.
  - apply rstrip_last_char.
Qed.

(** The three relations determine their result: the pieces of a text,
    the trimmed piece and the lower-cased string are unique. *)
Lemma split_no_sep (sep : ascii) (p : string) :
  count_char sep p = 0 -> PyStr.split sep p = [p].
Proof.
  induction p as [|c p IH]; [reflexivity|].
  cbn [count_char PyStr.split]. destruct (Ascii.eqb c sep); [discriminate|].
  intros H. now rewrite (IH H).
Qed.

Lemma split_app_sep (sep : ascii) (p rest : string) :
  count_char sep p = 0 ->
  PyStr.split sep (p ++ String sep rest) = p :: PyStr.split sep rest.
Proof.
  induction p as [|c p IH].
  - intros _. cbn [append PyStr.split]. now rewrite Ascii.eqb_refl.
  - cbn [count_char append PyStr.split].
    destruct (Ascii.eqb c sep); [discriminate|].
    intros H. now rewrite (IH H).
Qed.

Lemma split_unique (sep : ascii) (pieces : list string) :
  pieces <> [] ->
  Forall (fun piece => count_char sep piece = 0) pieces ->
  PyStr.split sep (String.concat (String sep EmptyString) pieces) = pieces.
Proof.
  induction pieces as [|p rest IH]; [congruence|]. intros _ F.
  inversion F as [|? ? Hp Hrest]; subst.
  destruct rest as [|q rest]; [now apply split_no_sep|].
  rewrite concat_cons by discriminate. cbn [append].
  rewrite (split_app_sep _ _ _ Hp). f_equal.
  apply IH; [discriminate | exact Hrest].
Qed.

Lemma lowered_unique (s low : string) : lowered s low -> low = PyStr.lower s.
Proof.
  revert low. induction s as [|c s IH]; intros [|l low]; cbn [lowered];
    try tauto.
  intros [-> H]. cbn [PyStr.lower].
  now rewrite lower_case_of_tolower, (IH _ H).
Qed.

Lemma lstrip_white_app (lead s : string) :
  all_white lead = true -> PyStr.lstrip (lead ++ s) = PyStr.lstrip s.
Proof.
  induction lead as [|c lead IH]; [reflexivity|].
  cbn [all_white append PyStr.lstrip]. intros H.
  apply andb_prop in H as [Hc Hl]. rewrite is_white_isspace in Hc.
  now rewrite Hc, IH.
Qed.

Lemma rstrip_white (trail : string) :
  all_white trail = true -> PyStr.rstrip trail = ""%string.
Proof.
  induction trail as [|c trail IH]; [reflexivity|].
  cbn [all_white]. intros H. apply andb_prop in H as [Hc Hl].
  rewrite is_white_isspace in Hc. now rewrite rstrip_unfold, (IH Hl), Hc.
Qed.

Lemma rstrip_app_white (core trail : string) :
  not_white (last_char core) -> all_white trail = true ->
  PyStr.rstrip (core ++ trail) = core.
Proof.
  intros Hlast Ht. induction core as [|c core IH].
  - now apply rstrip_white.
  - cbn [append]. rewrite rstrip_unfold.
    destruct core as [|d core].
    + cbn [append]. rewrite (rstrip_white _ Ht).
      cbn [last_char not_white] in Hlast. rewrite is_white_isspace in Hlast.
      now rewrite Hlast.
    + rewrite IH by exact Hlast. reflexivity.
Qed.

Lemma trimmed_unique (piece core : string) :
  trimmed piece core -> core = PyStr.strip piece.
Proof.
  intros [(lead & trail & -> & Wl & Wt) [Hfirst Hlast]].
  unfold PyStr.strip. rewrite (lstrip_white_app _ _ Wl).
  destruct core as [|c core].
  - cbn [append]. symmetry.
    assert (L : PyStr.lstrip trail = ""%string).
    { clear -Wt. induction trail as [|d trail IH]; [reflexivity|].
      cbn [all_white PyStr.lstrip] in *. apply andb_prop in Wt as [Hd Ht].
      rewrite is_white_isspace in Hd. now rewrite Hd, IH. }
    now rewrite L.
  - cbn [first_char not_white] in Hfirst. rewrite is_white_isspace in Hfirst.
    cbn [append PyStr.lstrip]. rewrite Hfirst.
    symmetry. now apply (rstrip_app_white (String c core)).
Qed.

(** Any list that fits the description of the entries is the list that
    [get_genre] returns. *)
Lemma get_genre_determined
    (File : string -> result (option FileType)) (file_path text : string)
    (pieces entries : list string) :
  tag_text File file_path = Some text ->
  pieces <> [] ->
  String.concat ";" pieces = text ->
  Forall (fun piece => count_char ";" piece = 0) pieces ->
  Forall2 (fun piece entry =>
             exists core, trimmed piece core /\ lowered core entry)
          pieces entries ->
  entries = get_genre File file_path.
Proof.
  intros T N C F R. rewrite get_genre_tag_text, T. unfold genre_pieces.
  rewrite <- C, (split_unique ";" pieces N F).
  clear -R. induction R as [|piece entry pieces entries (core & Ht & Hl) _ IH];
    [reflexivity|].
  cbn [map]. rewrite <- IH, <- (trimmed_unique _ _ Ht).
  now rewrite (lowered_unique _ _ Hl).
Qed.

(** C8. [get_genre] returns the empty list when the file cannot be
    opened, is not recognised or holds none of the keys genre, GENRE,
    TCON, or an empty list under the first of them that it holds
    (nothing is raised: the function is total).  Otherwise it takes
    the value of the first of these keys that is present, its first
    element if it is a list, and returns, in order, one entry for each
    piece of that text between semicolons: the piece without its
    leading and trailing white space, in lower case. *)
Theorem get_genre_extracts_first_tag
    (File : string -> result (option FileType)) (file_path : string) :
  match tag_text File file_path with
  | None => get_genre File file_path = []
  | Some text =>
      exists pieces,
        pieces <> []
        /\ String.concat ";" pieces = text
        /\ Forall (fun piece => count_char ";" piece = 0) pieces
        /\ Forall2 (fun piece entry =>
                      exists core, trimmed piece core /\ lowered core entry)
                   pieces (get_genre File file_path)
  end.
Proof.
  rewrite get_genre_tag_text.
  destruct (tag_text File file_path) as [text|]; [|reflexivity].
  exists (PyStr.split ";" text). split; [apply split_nonempty|].
  split; [apply (split_join ";")|]. split; [apply split_pieces|].
  unfold genre_pieces.
  induction (PyStr.split ";" text) as [|piece l IH]; cbn [map];
    constructor; [|exact IH].
  exists (PyStr.strip piece). split; [apply strip_trimmed | apply lowered_lower].
Qed.

Lemma get_genre_entries_normalised_witness :
  In "pop" (get_genre Example.File "/music/D.mp3")
  /\ PyStr.strip (PyStr.lower "pop") = "pop".
Proof.
  assert (H : In "pop" (get_genre Example.File "/music/D.mp3"))
    by (vm_compute; tauto).
  split; [exact H|].
  exact (proj2 (proj2 (proj2
           (get_genre_entries_normalised Example.File "/music/D.mp3" "pop" H)))).
Defined.

(** A file counts as an overlap exactly when the text of its genre tag
    holds a semicolon: [calculate_overlap] is the number of such
    files. *)
Theorem overlap_counts_semicolon_tags
    (File : string -> result (option FileType)) (audio_files : list string) :
  calculate_overlap File audio_files
  = List.length
      (filter (fun file =>
                 match tag_text File file with
                 | Some text => 0 <? count_char ";" text
                 | None => false
                 end)
              audio_files).
Proof.
  rewrite calculate_overlap_eq. f_equal. apply filter_ext. intros file.
  rewrite get_genre_length_tag_text.
  destruct (tag_text File file); [|reflexivity]. now rewrite split_length.
Qed.

(* ------------------------------------------------------------------ *)
(** ** The normaliser: edge cases *)

(** With an empty taxonomy every entry is title-cased and counted as
    unmapped. *)
Theorem normaliser_empty_taxonomy (genres : list string) :
  map_to_simplified_genres genres []
  = (map PyStr.title genres, List.length genres).
Proof.
  rewrite map_to_simplified_genres_eq. f_equal.
  induction genres as [|g l IH]; [reflexivity|].
  cbn [map List.length]. change (list_sum (?a :: ?l)) with (a + list_sum l).
  rewrite IH. reflexivity.
Qed.

Lemma list_sum_unmapped (simplified_keywords : Taxonomy) (genres : list string) :
  list_sum (map (unmapped_entry simplified_keywords) genres)
  = List.length (filter (fun g => negb (mapped simplified_keywords g)) genres).
Proof.
  induction genres as [|g l IH]; [reflexivity|].
  cbn [map filter]. change (list_sum (?a :: ?l)) with (a + list_sum l).
  rewrite IH. unfold unmapped_entry, mapped.
  destruct (find_match _ _) as [m|]; [destruct (PyStr.truthy m)|];
    reflexivity.
Qed.

(** The unmapped count of a call is the number of entries for which no
    non-empty name was found; these are the entries that come out
    title-cased, the others come out as the name found. *)
Theorem normaliser_unmapped_count
    (simplified_keywords : Taxonomy) (genres : list string) :
  let r := map_to_simplified_genres genres simplified_keywords in
  snd r = List.length (filter (fun g => negb (mapped simplified_keywords g))
                              genres)
  /\ snd r <= List.length genres
  /\ fst r = map (fun g => if mapped simplified_keywords g
                           then match find_match simplified_keywords
                                        (PyStr.strip (PyStr.lower g)) with
                                | Some m => m
                                | None => g
                                end
                           else PyStr.title g) genres.
Proof.
  cbv zeta. rewrite map_to_simplified_genres_eq. cbn [fst snd].
  rewrite list_sum_unmapped. split; [reflexivity|]. split.
  - apply filter_length_le.
  - apply map_ext. intros g. unfold simplified_entry, mapped.
    destruct (find_match _ _) as [m|]; [destruct (PyStr.truthy m)|];
      reflexivity.
Qed.

Lemma contains_empty (s : string) : PyStr.contains "" s = true.
Proof. rewrite contains_unfold. now destruct s. Qed.

(** An entry that lists the empty keyword matches every genre: when it
    comes first (and its name is not empty) every entry is mapped to
    it, whatever the later entries say. *)
Theorem normaliser_empty_keyword
    (name : string) (keywords : list string) (later : Taxonomy)
    (genres : list string) :
  In ""%string keywords -> name <> ""%string ->
  map_to_simplified_genres genres ((name, keywords) :: later)
  = (map (fun _ => name) genres, 0).
Proof.
  intros Hin Hne. rewrite map_to_simplified_genres_eq.
  assert (M : forall s, find_match ((name, keywords) :: later) s = Some name).
  { intros s. cbn [find_match].
    assert (E : existsb (fun keyword => PyStr.contains keyword s) keywords
                = true).
    { apply existsb_exists. exists ""%string. split; [exact Hin|].
      apply contains_empty. }
    now rewrite E. }
  apply truthy_nonempty in Hne.
  f_equal.
  - apply map_ext. intros g. unfold simplified_entry. now rewrite M, Hne.
  - induction genres as [|g l IH]; [reflexivity|].
    cbn [map]. change (list_sum (?a :: ?l)) with (a + list_sum l).
    rewrite IH. unfold unmapped_entry. now rewrite M, Hne.
Qed.

Lemma normaliser_empty_keyword_witness :
  map_to_simplified_genres ["deep house"; "bossa nova"]
                           [("other", ["zzz"; ""]); ("rock", ["rock"])]
  = (["other"; "other"], 0).
Proof.
  apply (normaliser_empty_keyword "other" ["zzz"; ""] [("rock", ["rock"])]).
  - right. left. reflexivity.
  - discriminate.
Defined.

(* ------------------------------------------------------------------ *)
(** ** Title case *)

Lemma iscased_tolower (c : ascii) :
  PyStr.iscased (PyStr.tolower c) = PyStr.iscased c.
Proof. destruct c as [[] [] [] [] [] [] [] []]; reflexivity. Qed.

Lemma iscased_toupper (c : ascii) :
  PyStr.iscased (PyStr.toupper c) = PyStr.iscased c.
Proof. destruct c as [[] [] [] [] [] [] [] []]; reflexivity. Qed.

Lemma toupper_idempotent (c : ascii) :
  PyStr.toupper (PyStr.toupper c) = PyStr.toupper c.
Proof. destruct c as [[] [] [] [] [] [] [] []]; reflexivity. Qed.

Lemma title_from_idempotent (s : string) :
  forall b, PyStr.title_from b (PyStr.title_from b s) = PyStr.title_from b s.
Proof.
  induction s as [|c s IH]; intros b; [reflexivity|].
  cbn [PyStr.title_from]. destruct b.
  - now rewrite tolower_idempotent, iscased_tolower, IH.
  - now rewrite toupper_idempotent, iscased_toupper, IH.
Qed.

(** For a genre of ASCII characters, title-casing twice is
    title-casing once: an entry that the normaliser left unmapped,
    which it stores title-cased, is shown by [display_results] as it
    is stored. *)
Theorem unmapped_entry_displayed_as_stored
    (simplified_keywords : Taxonomy) (genre : string) :
  is_ascii genre = true ->
  mapped simplified_keywords genre = false ->
  PyStr.title (simplified_entry simplified_keywords genre)
  = simplified_entry simplified_keywords genre.
Proof.
  intros _. unfold mapped, simplified_entry.
  destruct (find_match _ _) as [m|]; [destruct (PyStr.truthy m)|];
    try discriminate; intros _; apply title_from_idempotent.
Qed.

Lemma unmapped_entry_displayed_as_stored_witness :
  PyStr.title (simplified_entry Example.taxonomy "bossa nova")
  = simplified_entry Example.taxonomy "bossa nova".
Proof.
  apply (unmapped_entry_displayed_as_stored Example.taxonomy "bossa nova");
    reflexivity.
Defined.

(* ------------------------------------------------------------------ *)
(** ** Counters: what they hold *)

Lemma counter_incr_keys (elem key : pyval) (c : Counter_t) :
  In key (map fst (counter_incr elem c))
  <-> key = elem \/ In key (map fst c).
Proof.
  induction c as [|[k n] c IH]; cbn [counter_incr map fst In].
  - split; [intros [<-|[]]; auto | intros [->|[]]; auto].
  - destruct (pyval_eqb k elem) eqn:E; cbn [map fst In].
    + apply pyval_eqb_eq in E. subst k. intuition (auto; congruence).
    + rewrite IH. intuition (auto; congruence).
Qed.

Lemma counter_incr_nodup (elem : pyval) (c : Counter_t) :
  NoDup (map fst c) -> NoDup (map fst (counter_incr elem c)).
Proof.
  induction c as [|[k n] c IH]; cbn [counter_incr map fst]; intros H.
  - repeat constructor. intros [].
  - inversion H as [|? ? Hk Hc]; subst.
    destruct (pyval_eqb k elem) eqn:E; cbn [map fst].
    + now constructor.
    + constructor; [|now apply IH].
      rewrite counter_incr_keys. intros [->|Hin]; [|contradiction].
      now rewrite pyval_eqb_refl in E.
Qed.

Lemma counter_incr_positive (elem : pyval) (c : Counter_t) :
  Forall (fun item => 0 < snd item) c ->
  Forall (fun item => 0 < snd item) (counter_incr elem c).
Proof.
  induction c as [|[k n] c IH]; cbn [counter_incr]; intros H.
  - repeat constructor.
  - inversion H as [|? ? Hn Hc]; subst.
    destruct (pyval_eqb k elem); constructor; cbn [snd] in *; auto; lia.
Qed.

Lemma counter_of_invariant (l : list pyval) :
  forall c,
    NoDup (map fst c) -> Forall (fun item => 0 < snd item) c ->
    NoDup (map fst (counter_of l c))
    /\ Forall (fun item => 0 < snd item) (counter_of l c)
    /\ forall key, In key (map fst (counter_of l c))
                   <-> In key l \/ In key (map fst c).
Proof.
  unfold counter_of.
  induction l as [|x l IH]; intros c Hn Hp; cbn [fold_left].
  - repeat split; auto. intros [[]|H]; exact H.
  - destruct (IH (counter_incr x c) (counter_incr_nodup _ _ Hn)
                 (counter_incr_positive _ _ Hp)) as (N & P & K).
    repeat split; auto; rewrite K, counter_incr_keys; cbn [In];
      intuition auto.
Qed.

Lemma counter_get_in (c : Counter_t) (key : pyval) (n : nat) :
  NoDup (map fst c) -> In (key, n) c -> counter_get c key = n.
Proof.
  induction c as [|[k m] c IH]; cbn [map fst counter_get]; intros N H;
    [destruct H|].
  inversion N as [|? ? Hk Hc]; subst. destruct H as [E|H].
  - injection E as -> ->. now rewrite pyval_eqb_refl.
  - destruct (pyval_eqb k key) eqn:E; [|now apply IH].
    apply pyval_eqb_eq in E. subst k. exfalso. apply Hk.
    apply in_map_iff. now exists (key, n).
Qed.

(** A counter holds every distinct element once, with the number of
    its occurrences, which is positive; it holds nothing else. *)
Theorem Counter_counts_occurrences (l : list pyval) (c : Counter_t) :
  Counter l = Ok c ->
  NoDup (map fst c)
  /\ (forall key, In key (map fst c) <-> In key l)
  /\ (forall key, counter_get c key = occurrences key l)
  /\ (forall key n, In (key, n) c -> n = occurrences key l /\ 0 < n)
  /\ List.length c <= List.length l.
Proof.
  intros H. pose proof (Counter_total _ _ H) as T.
  apply Counter_inv in H as [_ ->].
  destruct (counter_of_invariant l [] (NoDup_nil _) (Forall_nil _))
    as (N & P & K).
  assert (G : forall key, counter_get (counter_of l []) key = occurrences key l)
    by (intros key; now rewrite counter_get_counter_of).
  repeat split; auto.
  - intros Hin. apply K in Hin as [Hin|[]]. exact Hin.
  - intros Hin. apply K. now left.
  - rewrite <- G. symmetry. now apply counter_get_in.
  - rewrite Forall_forall in P. exact (P _ H).
  - rewrite <- T. clear -P. unfold count_total.
    induction P as [|[k n] c Hn _ IH]; [constructor|].
    cbn [List.length map snd] in *.
    change (list_sum (?a :: ?l)) with (a + list_sum l). lia.
Qed.

Lemma Counter_counts_occurrences_witness :
  exists c,
    Counter [PStr "rock"; PStr "pop"; PStr "rock"] = Ok c
    /\ counter_get c (PStr "rock") = 2
    /\ NoDup (map fst c).
Proof.
  eexists. split; [vm_compute; reflexivity|].
  pose proof (Counter_counts_occurrences
                [PStr "rock"; PStr "pop"; PStr "rock"] _ eq_refl)
    as (N & _ & G & _).
  split; [exact (G (PStr "rock")) | exact N].
Defined.

(* ------------------------------------------------------------------ *)
(** ** [calculate_genre_distribution]: when and what it returns *)

Section DistributionMore.

Variable File : string -> result (option FileType).
Variable simplified_keywords : Taxonomy.

(** With the flag on, the call returns for the empty file list only
    (an empty count, no percentages, total 0); for any other list it
    raises [TypeError]. *)
Theorem distribution_simple_returns_iff_empty (audio_files : list string) :
  (audio_files = [] ->
   calculate_genre_distribution File audio_files true simplified_keywords
   = Ok (Tuple3 [] [] 0))
  /\ (audio_files <> [] ->
      calculate_genre_distribution File audio_files true simplified_keywords
      = Raise TypeError).
Proof.
  split.
  - intros ->. reflexivity.
  - apply distribution_simple_raises.
Qed.

(** With the flag off, the call returns, and the counts add up to the
    number of genre entries of all files together, not to the number
    of files. *)
Theorem distribution_raw_total (audio_files : list string) :
  exists d,
    calculate_genre_distribution File audio_files false simplified_keywords
    = Ok d
    /\ count_total (dist_count d)
       = list_sum (map (fun file => List.length (get_genre File file))
                       audio_files)
    /\ count_total (dist_count d)
       = List.length (flat_map (get_genre File) audio_files).
Proof.
  pose proof (distribution_raw_returns File simplified_keywords audio_files)
    as R. cbv zeta in R.
  assert (T : count_total
                (counter_of (map PStr (flat_map (get_genre File) audio_files))
                            [])
              = List.length (flat_map (get_genre File) audio_files)).
  { rewrite count_total_counter_of, length_map. reflexivity. }
  assert (L : List.length (flat_map (get_genre File) audio_files)
              = list_sum (map (fun file => List.length (get_genre File file))
                              audio_files)).
  { clear. induction audio_files as [|f l IH]; [reflexivity|].
    cbn [flat_map map]. rewrite length_app, IH. reflexivity. }
  destruct (_ =? 0); eexists; (split; [exact R|]); cbn [dist_count];
    rewrite T; auto.
Qed.

End DistributionMore.

Lemma distribution_simple_returns_iff_empty_witness :
  calculate_genre_distribution Example.File [] true Example.taxonomy
  = Ok (Tuple3 [] [] 0)
  /\ calculate_genre_distribution Example.File ["/music/C.ogg"] true
                                  Example.taxonomy
     = Raise TypeError.
Proof.
  split.
  - apply (proj1 (distribution_simple_returns_iff_empty
                    Example.File Example.taxonomy [])). reflexivity.
  - apply (proj2 (distribution_simple_returns_iff_empty
                    Example.File Example.taxonomy ["/music/C.ogg"])).
    discriminate.
Defined.

(* ------------------------------------------------------------------ *)
(** ** Percentages: range *)

Lemma count_le_total (c : Counter_t) (key : pyval) (n : nat) :
  In (key, n) c -> n <= count_total c.
Proof.
  induction c as [|[k m] c IH]; intros H; [destruct H|].
  rewrite count_total_cons. destruct H as [E|H].
  - injection E as _ ->. lia.
  - specialize (IH H). lia.
Qed.

Lemma percentages_in (c : Counter_t) (total : nat) (genre : pyval) (p : Q) :
  In (genre, p) (percentages c total) ->
  exists count, In (genre, count) c /\ p = percentage count total.
Proof.
  unfold percentages. intros H.
  apply in_map_iff in H as ([g n] & E & Hin).
  injection E as <- <-. now exists n.
Qed.

(** What a successful call hands back, in terms of the list that was
    counted. *)
Lemma distribution_inv_counter
    (File : string -> result (option FileType)) (audio_files : list string)
    (use_simple_genres : bool) (simplified_keywords : Taxonomy)
    (d : distribution) :
  calculate_genre_distribution File audio_files use_simple_genres
                               simplified_keywords = Ok d ->
  exists genres,
    Counter genres = Ok (dist_count d)
    /\ dist_percentage d
       = if List.length genres =? 0 then []
         else percentages (dist_count d) (List.length genres).
Proof.
  unfold calculate_genre_distribution.
  set (genres := fold_left _ audio_files []).
  destruct (Counter genres) as [c|e] eqn:C; cbn [bind]; [|discriminate].
  intros H. exists genres.
  destruct (List.length genres =? 0); injection H as <-; cbn; auto.
Qed.

(** Every percentage that [calculate_genre_distribution] returns is
    above 0 and at most 100. *)
Theorem distribution_percentage_range
    (File : string -> result (option FileType)) (audio_files : list string)
    (use_simple_genres : bool) (simplified_keywords : Taxonomy)
    (d : distribution) (genre : pyval) (p : Q) :
  calculate_genre_distribution File audio_files use_simple_genres
                               simplified_keywords = Ok d ->
  In (genre, p) (dist_percentage d) ->
  (0 < p /\ p <= inject_Z 100)%Q.
Proof.
  intros H Hin.
  destruct (distribution_inv_counter _ _ _ _ _ H) as (genres & C & E).
  rewrite E in Hin. destruct (List.length genres =? 0); [destruct Hin|].
  apply percentages_in in Hin as (n & Hn & ->).
  pose proof (Counter_total _ _ C) as T.
  apply Counter_inv in C as [_ C].
  destruct (counter_of_invariant genres [] (NoDup_nil _) (Forall_nil _))
    as (_ & P & _).
  rewrite <- C in P. rewrite Forall_forall in P.
  apply percentage_range; [exact (P _ Hn)|].
  rewrite <- T. eapply count_le_total; eauto.
Qed.

Lemma distribution_percentage_range_witness :
  (0 < 100 # 2 /\ 100 # 2 <= inject_Z 100)%Q.
Proof.
  apply (distribution_percentage_range
           Example.File Example.files false Example.taxonomy
           (Tuple2 [(PStr "classic rock", 1); (PStr "deep house", 1)]
                   [(PStr "classic rock", (100 # 2)%Q);
                    (PStr "deep house", (100 # 2)%Q)])
           (PStr "deep house")).
  - vm_compute. reflexivity.
  - right. left. reflexivity.
Defined.

(* ------------------------------------------------------------------ *)
(** ** [perform_analysis]: the numbers it reports *)

Section AnalysisNumbers.

Variable File : string -> result (option FileType).
Variable simplified_keywords : Taxonomy.

Lemma overlap_le_entries (audio_files : list string) :
  2 * calculate_overlap File audio_files
  <= List.length (flat_map (get_genre File) audio_files)
  /\ calculate_overlap File audio_files <= List.length audio_files.
Proof.
  rewrite calculate_overlap_eq.
  induction audio_files as [|f l [IH1 IH2]]; [cbn; lia|].
  cbn [flat_map filter List.length]. rewrite length_app.
  destruct (1 <? List.length (get_genre File f)) eqn:E; cbn [List.length].
  - apply Nat.ltb_lt in E. lia.
  - lia.
Qed.

(** The analysis always succeeds, and its numbers fit together: the
    total is the sum of the counts and the number of raw genre entries,
    the unmapped count is at most the total and is 0 with the flag
    off. *)
Theorem perform_analysis_totals (audio_files : list string)
    (use_simple_genres : bool) :
  exists a,
    perform_analysis File audio_files use_simple_genres simplified_keywords
    = Ok a
    /\ total_tracks a = count_total (genre_count a)
    /\ total_tracks a = List.length (flat_map (get_genre File) audio_files)
    /\ unmapped_count a <= total_tracks a
    /\ (use_simple_genres = false -> unmapped_count a = 0).
Proof.
  rewrite perform_analysis_eq. eexists. split; [reflexivity|].
  cbn [total_tracks genre_count unmapped_count].
  rewrite count_total_counter_of, length_map.
  destruct use_simple_genres.
  - rewrite map_to_simplified_genres_eq. cbn [fst snd].
    rewrite length_map. repeat split; auto; try discriminate.
    pose proof (unmapped_count_le simplified_keywords
                  (flat_map (get_genre File) audio_files)) as U.
    now rewrite map_to_simplified_genres_eq in U.
  - cbn [fst snd]. repeat split; auto. lia.
Qed.

(** The overlap that the analysis reports is at most the number of
    files, and each overlapping file accounts for two genre entries or
    more: twice the overlap is at most the total. *)
Theorem perform_analysis_overlap_bounds (audio_files : list string)
    (use_simple_genres : bool) :
  exists a,
    perform_analysis File audio_files use_simple_genres simplified_keywords
    = Ok a
    /\ overlap_count a <= List.length audio_files
    /\ 2 * overlap_count a <= total_tracks a.
Proof.
  rewrite perform_analysis_eq. eexists. split; [reflexivity|].
  cbn [total_tracks overlap_count].
  destruct (overlap_le_entries audio_files) as [H2 H1].
  split; [exact H1|].
  destruct use_simple_genres; cbn [fst]; [|exact H2].
  rewrite map_to_simplified_genres_eq. cbn [fst]. now rewrite length_map.
Qed.

(** With the flag off, [calculate_genre_distribution] and
    [perform_analysis] compute the same count and the same
    percentages. *)
Theorem distribution_agrees_with_analysis (audio_files : list string) :
  exists d a,
    calculate_genre_distribution File audio_files false simplified_keywords
    = Ok d
    /\ perform_analysis File audio_files false simplified_keywords = Ok a
    /\ dist_count d = genre_count a
    /\ dist_percentage d = genre_percentage a.
Proof.
  rewrite perform_analysis_eq, distribution_raw_returns. cbv zeta.
  cbn [fst]. rewrite length_map.
  destruct (List.length (flat_map (get_genre File) audio_files) =? 0) eqn:Z;
    do 2 eexists; repeat split.
  cbn [dist_percentage genre_percentage].
  apply Nat.eqb_eq, length_zero_iff_nil in Z. now rewrite Z.
Qed.

End AnalysisNumbers.

(* ------------------------------------------------------------------ *)
(** ** Discovery: which names pass the extension test *)

Lemma tolower_sep (c : ascii) :
  Ascii.eqb (PyStr.tolower c) OsPath.sep = Ascii.eqb c OsPath.sep.
Proof. destruct c as [[] [] [] [] [] [] [] []]; reflexivity. Qed.

Lemma tolower_extsep (c : ascii) :
  Ascii.eqb (PyStr.tolower c) OsPath.extsep = Ascii.eqb c OsPath.extsep.
Proof. destruct c as [[] [] [] [] [] [] [] []]; reflexivity. Qed.

Lemma after_last_lower (c : ascii) (s : string) :
  (forall a, Ascii.eqb (PyStr.tolower a) c = Ascii.eqb a c) ->
  PyStr.after_last c (PyStr.lower s)
  = option_map PyStr.lower (PyStr.after_last c s).
Proof.
  intros Hc. induction s as [|a s IH]; [reflexivity|].
  cbn [PyStr.lower PyStr.after_last]. rewrite IH, Hc.
  destruct (PyStr.after_last c s); [reflexivity|].
  now destruct (Ascii.eqb a c).
Qed.

Lemma skip_leading_dots_lower (s : string) :
  OsPath.skip_leading_dots (PyStr.lower s)
  = PyStr.lower (OsPath.skip_leading_dots s).
Proof.
  induction s as [|a s IH]; [reflexivity|].
  cbn [PyStr.lower OsPath.skip_leading_dots]. rewrite tolower_extsep.
  now destruct (Ascii.eqb a OsPath.extsep).
Qed.

Lemma ext_lower (p : string) :
  OsPath.ext (PyStr.lower p) = PyStr.lower (OsPath.ext p).
Proof.
  unfold OsPath.ext, OsPath.basename.
  rewrite (after_last_lower OsPath.sep p tolower_sep).
  assert (E : match option_map PyStr.lower (PyStr.after_last OsPath.sep p) with
              | Some b => b
              | None => PyStr.lower p
              end
              = PyStr.lower match PyStr.after_last OsPath.sep p with
                            | Some b => b
                            | None => p
                            end)
    by now destruct (PyStr.after_last OsPath.sep p).
  rewrite E, skip_leading_dots_lower.
  rewrite (after_last_lower OsPath.extsep _ tolower_extsep).
  now destruct (PyStr.after_last OsPath.extsep _).
Qed.

(** The extension test does not look at the case of the name: a name
    passes exactly when its lower-cased form passes. *)
Theorem has_audio_extension_ignores_case (file : string) :
  has_audio_extension (PyStr.lower file) = has_audio_extension file.
Proof.
  unfold has_audio_extension. cbn [OsPath.splitext snd].
  now rewrite ext_lower, lower_idempotent.
Qed.

Lemma after_last_absent (c : ascii) (s : string) :
  count_char c s = 0 -> PyStr.after_last c s = None.
Proof.
  induction s as [|a s IH]; [reflexivity|].
  cbn [count_char PyStr.after_last]. intros H.
  destruct (Ascii.eqb a c); [discriminate|]. now rewrite IH.
Qed.

Lemma after_last_dots_sep (dots : string) :
  only_dots dots = true -> PyStr.after_last OsPath.sep dots = None.
Proof.
  induction dots as [|a s IH]; [reflexivity|].
  cbn [only_dots PyStr.after_last]. intros H.
  apply andb_prop in H as [Ha Hs]. rewrite (IH Hs).
  apply Ascii.eqb_eq in Ha. now subst a.
Qed.

Lemma skip_leading_dots_app (dots stem : string) :
  only_dots dots = true ->
  OsPath.skip_leading_dots (dots ++ stem) = OsPath.skip_leading_dots stem.
Proof.
  induction dots as [|a s IH]; [reflexivity|].
  cbn [only_dots append OsPath.skip_leading_dots]. intros H.
  apply andb_prop in H as [Ha Hs]. now rewrite Ha, IH.
Qed.

Lemma count_char_skip_leading_dots (c : ascii) (s : string) :
  count_char c (OsPath.skip_leading_dots s) <= count_char c s.
Proof.
  induction s as [|a s IH]; [reflexivity|].
  cbn [OsPath.skip_leading_dots].
  destruct (Ascii.eqb a OsPath.extsep); [|reflexivity].
  cbn [count_char]. lia.
Qed.

(** A name without an extension in the sense of [splitext] is rejected:
    leading dots followed by a stem that holds no dot, such as "mp3",
    ".mp3" or "..flac". *)
Theorem has_audio_extension_rejects_dotfiles (dots stem : string) :
  only_dots dots = true ->
  count_char OsPath.extsep stem = 0 ->
  count_char OsPath.sep stem = 0 ->
  has_audio_extension (dots ++ stem) = false.
Proof.
  intros Hd Hdot Hsep.
  assert (B : OsPath.basename (dots ++ stem) = (dots ++ stem)%string).
  { unfold OsPath.basename.
    rewrite (after_last_app_none _ _ _ (after_last_absent _ _ Hsep)).
    now rewrite (after_last_dots_sep _ Hd). }
  assert (E : OsPath.ext (dots ++ stem) = ""%string).
  { unfold OsPath.ext. rewrite B, (skip_leading_dots_app _ _ Hd).
    rewrite after_last_absent; [reflexivity|].
    pose proof (count_char_skip_leading_dots OsPath.extsep stem). lia. }
  unfold has_audio_extension. cbn [OsPath.splitext snd]. now rewrite E.
Qed.

Lemma has_audio_extension_rejects_dotfiles_witness :
  has_audio_extension ".mp3" = false.
Proof.
  apply (has_audio_extension_rejects_dotfiles "." "mp3"); reflexivity.
Defined.

(** The discovered paths come in the order of the walk, and there are
    as many as files that pass the extension test. *)
Lemma get_audio_files_length (directory : string) (t : tree) :
  List.length (get_audio_files directory t)
  = list_sum (map (fun '(_, _, files) =>
                     List.length (filter has_audio_extension files))
                  (os_walk directory t)).
Proof.
  rewrite get_audio_files_eq.
  induction (os_walk directory t) as [|[[root dirs] files] l IH];
    [reflexivity|].
  cbn [flat_map map]. rewrite length_app, length_map, IH. reflexivity.
Qed.

(* ------------------------------------------------------------------ *)
(** ** [display_results]: the rows of the table *)

Section Display.

Context {A : Type} (key : A -> Q).

Lemma insert_desc_perm (x : A) (l : list A) :
  Permutation (UI.insert_desc key x l) (x :: l).
Proof.
  induction l as [|y l IH]; cbn [UI.insert_desc]; [reflexivity|].
  destruct (Qle_bool (key y) (key x)); [reflexivity|].
  rewrite IH. apply perm_swap.
Qed.

Lemma sorted_desc_perm (l : list A) : Permutation (UI.sorted_desc key l) l.
Proof.
  induction l as [|x l IH]; [reflexivity|].
  cbn [UI.sorted_desc fold_right]. fold (UI.sorted_desc key l).
  now rewrite insert_desc_perm, IH.
Qed.

Lemma insert_desc_sorted (x : A) (l : list A) :
  StronglySorted (fun a b => (key b <= key a)%Q) l ->
  StronglySorted (fun a b => (key b <= key a)%Q) (UI.insert_desc key x l).
Proof.
  induction l as [|y l IH]; cbn [UI.insert_desc]; intros H.
  - repeat constructor.
  - inversion H as [|? ? Hl Hy]; subst.
    destruct (Qle_bool (key y) (key x)) eqn:E.
    + apply Qle_bool_iff in E. constructor; [exact H|].
      constructor; [exact E|].
      rewrite Forall_forall in *. intros z Hz.
      eapply Qle_trans; [apply Hy, Hz | exact E].
    + constructor; [now apply IH|].
      assert (L : (key x <= key y)%Q).
      { destruct (Qlt_le_dec (key x) (key y)) as [Lt|Le].
        - now apply Qlt_le_weak.
        - apply Qle_bool_iff in Le. congruence. }
      rewrite Forall_forall in *. intros z Hz.
      apply (Permutation_in _ (insert_desc_perm x l)) in Hz.
      destruct Hz as [<-|Hz]; [exact L | now apply Hy].
Qed.

Lemma sorted_desc_sorted (l : list A) :
  StronglySorted (fun a b => (key b <= key a)%Q) (UI.sorted_desc key l).
Proof.
  induction l as [|x l IH]; [constructor|].
  cbn [UI.sorted_desc fold_right]. now apply insert_desc_sorted.
Qed.

Lemma insert_desc_filter (q : Q) (x : A) (l : list A) :
  filter (fun a => Qeq_bool (key a) q) (UI.insert_desc key x l)
  = filter (fun a => Qeq_bool (key a) q) (x :: l).
Proof.
  induction l as [|y l IH]; cbn [UI.insert_desc]; [reflexivity|].
  destruct (Qle_bool (key y) (key x)) eqn:E; [reflexivity|].
  cbn [filter] in *. rewrite IH.
  destruct (Qeq_bool (key x) q) eqn:X, (Qeq_bool (key y) q) eqn:Y;
    try reflexivity.
  exfalso. apply Qeq_bool_iff in X, Y.
  assert (L : (key y <= key x)%Q) by (rewrite X, Y; apply Qle_refl).
  apply Qle_bool_iff in L. congruence.
Qed.

Lemma sorted_desc_filter (q : Q) (l : list A) :
  filter (fun a => Qeq_bool (key a) q) (UI.sorted_desc key l)
  = filter (fun a => Qeq_bool (key a) q) l.
Proof.
  induction l as [|x l IH]; [reflexivity|].
  cbn [UI.sorted_desc fold_right]. fold (UI.sorted_desc key l).
  rewrite insert_desc_filter. cbn [filter]. now rewrite IH.
Qed.

End Display.

Lemma display_rows_strings (genre_percentage : list (pyval * Q))
    (items : Counter_t) :
  string_keys items = true ->
  UI.display_rows genre_percentage items
  = inr (map (fun item => row_of genre_percentage
                                 (key_text (fst item), snd item)) items).
Proof.
  unfold string_keys.
  induction items as [|[k n] items IH]; cbn [forallb]; intros H;
    [reflexivity|].
  apply andb_prop in H as [Hk Hi]. cbn [UI.display_rows map].
  rewrite (IH Hi). destruct k; try discriminate. reflexivity.
Qed.

Lemma string_keys_perm (c c' : Counter_t) :
  Permutation c c' -> string_keys c = true -> string_keys c' = true.
Proof.
  unfold string_keys. rewrite !forallb_forall. intros P H x Hx.
  apply H. eapply Permutation_in; [symmetry; exact P | exact Hx].
Qed.

Lemma row_percentage_value (genre_percentage : list (pyval * Q))
    (item : pyval * nat) :
  string_keys [item] = true ->
  UI.percentage_value
    (row_of genre_percentage (key_text (fst item), snd item))
  = UI.sort_key genre_percentage item.
Proof.
  destruct item as [k n]. unfold string_keys. cbn.
  destruct k; try discriminate. reflexivity.
Qed.

Lemma string_keys_cons (item : pyval * nat) (c : Counter_t) :
  string_keys (item :: c) = true ->
  string_keys [item] = true /\ string_keys c = true.
Proof.
  unfold string_keys. cbn [forallb]. intros H.
  apply andb_prop in H as [Hx Hc]. now rewrite Hx.
Qed.

Lemma rows_sorted (genre_percentage : list (pyval * Q)) (items : Counter_t) :
  string_keys items = true ->
  StronglySorted
    (fun a b => (UI.sort_key genre_percentage b
                 <= UI.sort_key genre_percentage a)%Q) items ->
  StronglySorted
    (fun r1 r2 => (UI.percentage_value r2 <= UI.percentage_value r1)%Q)
    (map (fun item => row_of genre_percentage
                             (key_text (fst item), snd item)) items).
Proof.
  intros K S. induction S as [|x l Sl IH Hx]; cbn [map]; [constructor|].
  apply string_keys_cons in K as [Kx Kl].
  constructor; [now apply IH|].
  rewrite Forall_forall in *. intros r Hr.
  apply in_map_iff in Hr as (y & <- & Hy).
  rewrite (row_percentage_value _ x Kx).
  rewrite row_percentage_value; [exact (Hx _ Hy)|].
  unfold string_keys in *. rewrite forallb_forall in Kl.
  cbn [forallb]. now rewrite (Kl _ Hy).
Qed.

(** For a counter of strings, [display_results] shows one row per
    genre: the rows are the counter's items in another order, and that
    order is by descending percentage. *)
Theorem display_results_sorted_rows
    (genre_count : Counter_t) (genre_percentage : list (pyval * Q)) :
  string_keys genre_count = true ->
  exists rows,
    UI.display_results genre_count genre_percentage = inr rows
    /\ Permutation rows
         (map (fun item => row_of genre_percentage
                                  (key_text (fst item), snd item))
              genre_count)
    /\ List.length rows = List.length genre_count
    /\ StronglySorted
         (fun r1 r2 => (UI.percentage_value r2 <= UI.percentage_value r1)%Q)
         rows.
Proof.
  intros H. unfold UI.display_results.
  set (key := UI.sort_key genre_percentage).
  pose proof (sorted_desc_perm key genre_count) as P.
  rewrite display_rows_strings
    by (eapply string_keys_perm; [symmetry; exact P | exact H]).
  eexists. split; [reflexivity|]. split; [|split].
  - now apply Permutation_map.
  - rewrite length_map. now apply Permutation_length.
  - apply rows_sorted.
    + eapply string_keys_perm; [symmetry; exact P | exact H].
    + apply sorted_desc_sorted.
Qed.

Lemma display_results_sorted_rows_witness :
  exists rows,
    UI.display_results [(PStr "pop", 1); (PStr "rock", 3)]
                       [(PStr "pop", (100 # 4)%Q); (PStr "rock", (300 # 4)%Q)]
    = inr rows
    /\ map UI.genre_cell rows = ["Rock"; "Pop"]
    /\ List.length rows = 2.
Proof.
  destruct (display_results_sorted_rows
              [(PStr "pop", 1); (PStr "rock", 3)]
              [(PStr "pop", (100 # 4)%Q); (PStr "rock", (300 # 4)%Q)]
              eq_refl) as (rows & E & _ & L & _).
  exists rows. split; [exact E|]. split; [|exact L].
  vm_compute in E. injection E as <-. reflexivity.
Defined.

(** The sort is stable: genres with the same percentage are shown in
    the order in which the counter holds them, that is in the order of
    their first occurrence. *)
Theorem display_results_stable
    (genre_count : Counter_t) (genre_percentage : list (pyval * Q)) (q : Q) :
  string_keys genre_count = true ->
  exists rows,
    UI.display_results genre_count genre_percentage = inr rows
    /\ filter (fun r => Qeq_bool (UI.percentage_value r) q) rows
       = map (fun item => row_of genre_percentage
                                 (key_text (fst item), snd item))
             (filter (fun item =>
                        Qeq_bool (UI.sort_key genre_percentage item) q)
                     genre_count).
Proof.
  intros H. unfold UI.display_results.
  set (key := UI.sort_key genre_percentage).
  pose proof (sorted_desc_perm key genre_count) as P.
  rewrite display_rows_strings
    by (eapply string_keys_perm; [symmetry; exact P | exact H]).
  eexists. split; [reflexivity|].
  rewrite <- (sorted_desc_filter key q genre_count).
  assert (S : string_keys (UI.sorted_desc key genre_count) = true)
    by (eapply string_keys_perm; [symmetry; exact P | exact H]).
  clear P.
  induction (UI.sorted_desc key genre_count) as [|x l IH]; [reflexivity|].
  apply string_keys_cons in S as [Sx Sl]. cbn [map filter].
  rewrite (row_percentage_value _ x Sx). fold key.
  destruct (Qeq_bool (key x) q); cbn [map]; now rewrite (IH Sl).
Qed.

Lemma display_results_stable_witness :
  exists rows,
    UI.display_results [(PStr "pop", 1); (PStr "rock", 2); (PStr "jazz", 1)]
                       [(PStr "pop", 25%Q); (PStr "rock", 50%Q);
                        (PStr "jazz", 25%Q)]
    = inr rows
    /\ map UI.genre_cell rows = ["Rock"; "Pop"; "Jazz"]
    /\ map UI.genre_cell
           (filter (fun r => Qeq_bool (UI.percentage_value r) 25%Q) rows)
       = ["Pop"; "Jazz"].
Proof.
  destruct (display_results_stable
              [(PStr "pop", 1); (PStr "rock", 2); (PStr "jazz", 1)]
              [(PStr "pop", 25%Q); (PStr "rock", 50%Q); (PStr "jazz", 25%Q)]
              25%Q eq_refl) as (rows & E & F).
  exists rows. split; [exact E|]. rewrite F.
  vm_compute in E. injection E as <-. split; reflexivity.
Defined.

(* ------------------------------------------------------------------ *)
(** ** [perform_analysis] with its widgets *)

Lemma percentage_dict_ok (items : Counter_t) (total : nat) :
  items = [] \/ 0 < total ->
  UI.percentage_dict items total = inr (percentages items total).
Proof.
  intros [->|H]; [reflexivity|].
  induction items as [|[g n] items IH]; [reflexivity|].
  cbn [UI.percentage_dict percentages map]. unfold UI.percent.
  destruct (total =? 0) eqn:Z; [apply Nat.eqb_eq in Z; lia|].
  unfold percentages in IH. now rewrite IH.
Qed.

Lemma string_keys_counter_of (l : list string) :
  string_keys (counter_of (map PStr l) []) = true.
Proof.
  destruct (counter_of_invariant (map PStr l) [] (NoDup_nil _) (Forall_nil _))
    as (_ & _ & K).
  unfold string_keys. apply forallb_forall. intros [k n] Hin. cbn [fst].
  assert (Hk : In k (map fst (counter_of (map PStr l) [])))
    by (apply in_map_iff; now exists (k, n)).
  apply K in Hk as [Hk|[]].
  apply in_map_iff in Hk as (s & <- & _). reflexivity.
Qed.

Lemma display_results_strings (genre_count : Counter_t)
    (genre_percentage : list (pyval * Q)) :
  string_keys genre_count = true ->
  UI.display_results genre_count genre_percentage
  = inr (map (fun item => row_of genre_percentage
                                 (key_text (fst item), snd item))
             (UI.sorted_desc (UI.sort_key genre_percentage) genre_count)).
Proof.
  intros H. unfold UI.display_results. apply display_rows_strings.
  eapply string_keys_perm; [symmetry; apply sorted_desc_perm | exact H].
Qed.

Section Slots.

Variable File : string -> result (option FileType).
Variable listdir : string -> result (option tree).
Variable simplified_keywords : Taxonomy.

(** The [try] block in terms of the analysis: it sets the overlap
    label, then the table, logs the summary and raises nothing. *)
Lemma analysis_block_eq (w : UI.Widgets) (audio_files : list string) :
  exists a,
    perform_analysis File audio_files (UI.simple_checked w) simplified_keywords
    = Ok a
    /\ UI.analysis_block File simplified_keywords w audio_files
       = (UI.set_table
            (UI.set_overlap w (UI.str_nat (overlap_count a)))
            (map (fun item => row_of (genre_percentage a)
                                     (key_text (fst item), snd item))
                 (UI.sorted_desc (UI.sort_key (genre_percentage a))
                                 (genre_count a))),
          UI.summary (UI.simple_checked w) (List.length audio_files)
                     (List.length (genre_count a)) (unmapped_count a),
          None).
Proof.
  rewrite perform_analysis_eq. eexists. split; [reflexivity|].
  cbn [genre_count genre_percentage overlap_count unmapped_count].
  unfold UI.analysis_block.
  destruct (if UI.simple_checked w then _ else _) as [genres unmapped].
  cbn [fst snd]. rewrite Counter_strings.
  rewrite percentage_dict_ok.
  - rewrite display_results_strings by apply string_keys_counter_of.
    reflexivity.
  - destruct genres; [now left | right; cbn; lia].
Qed.

(** Whatever the widgets hold, [perform_analysis] ends with the button
    enabled and labelled "Analyze", and leaves the directory field and
    the radio buttons alone; so does a click, that is [analyze]
    followed by [perform_analysis]. *)
Theorem perform_analysis_restores_button (w : UI.Widgets) :
  let after := fst (UI.perform_analysis File listdir simplified_keywords w) in
  let clicked :=
    fst (UI.perform_analysis File listdir simplified_keywords
                             (fst (UI.analyze w))) in
  (UI.button_text after = "Analyze"
   /\ UI.button_enabled after = true
   /\ UI.directory_text after = UI.directory_text w
   /\ UI.simple_checked after = UI.simple_checked w)
  /\ (UI.button_enabled (fst (UI.analyze w)) = false
      /\ UI.button_text clicked = "Analyze"
      /\ UI.button_enabled clicked = true
      /\ UI.directory_text clicked = UI.directory_text w
      /\ UI.simple_checked clicked = UI.simple_checked w).
Proof.
  assert (G : forall w0,
             let after :=
               fst (UI.perform_analysis File listdir simplified_keywords w0) in
             UI.button_text after = "Analyze"
             /\ UI.button_enabled after = true
             /\ UI.directory_text after = UI.directory_text w0
             /\ UI.simple_checked after = UI.simple_checked w0).
  { intros w0. cbv zeta. unfold UI.perform_analysis.
    destruct (negb (PyStr.truthy (PyStr.strip (UI.directory_text w0))));
      [repeat split|].
    destruct (UI.discover listdir _) as [[|f l]|e]; [repeat split| |repeat split].
    destruct (analysis_block_eq w0 (f :: l)) as (a & _ & ->).
    repeat split. }
  cbv zeta. split; [apply G|].
  destruct (G (fst (UI.analyze w))) as (B1 & B2 & B3 & B4).
  repeat split; auto.
Qed.

(** The division by the total, which [perform_analysis] does not
    guard, is never a division by zero: the counter of a list of
    strings is built without error, and it is empty whenever the total
    is 0, so that every percentage is computed; the [try] block never
    raises [ZeroDivisionError]. *)
Theorem perform_analysis_never_divides_by_zero :
  (forall genres : list string,
      match Counter (map PStr genres) with
      | Ok genre_count =>
          UI.percentage_dict genre_count (List.length genres)
          = inr (percentages genre_count (List.length genres))
      | Raise _ => False
      end)
  /\ (forall w audio_files,
         snd (UI.analysis_block File simplified_keywords w audio_files)
         <> Some UI.ZeroDivisionError).
Proof.
  split.
  - intros genres. rewrite Counter_strings. apply percentage_dict_ok.
    destruct genres; [now left | right; cbn; lia].
  - intros w audio_files.
    destruct (analysis_block_eq w audio_files) as (a & _ & ->).
    discriminate.
Qed.

(** When audio files are found, the overlap label shows the overlap
    count, the table shows the genres of the analysis by descending
    percentage, one row per genre, and the summary is logged. *)
Theorem perform_analysis_shows_results (w : UI.Widgets)
    (audio_files : list string) :
  PyStr.strip (UI.directory_text w) <> ""%string ->
  UI.discover listdir (PyStr.strip (UI.directory_text w)) = Ok audio_files ->
  audio_files <> [] ->
  exists a rows,
    perform_analysis File audio_files (UI.simple_checked w) simplified_keywords
    = Ok a
    /\ fst (UI.perform_analysis File listdir simplified_keywords w)
       = UI.set_button
           (UI.set_table (UI.set_overlap w (UI.str_nat (overlap_count a))) rows)
           "Analyze" true
    /\ snd (UI.perform_analysis File listdir simplified_keywords w)
       = UI.summary (UI.simple_checked w) (List.length audio_files)
                    (List.length (genre_count a)) (unmapped_count a)
    /\ Permutation rows
         (map (fun item => row_of (genre_percentage a)
                                  (key_text (fst item), snd item))
              (genre_count a))
    /\ StronglySorted
         (fun r1 r2 => (UI.percentage_value r2 <= UI.percentage_value r1)%Q)
         rows.
Proof.
  intros Hne Hd Hf. apply truthy_nonempty in Hne.
  destruct (analysis_block_eq w audio_files) as (a & Ha & Hb).
  exists a. eexists. split; [exact Ha|].
  unfold UI.perform_analysis. rewrite Hne, Hd. cbn [negb].
  destruct audio_files as [|f l]; [congruence|]. rewrite Hb. cbn [fst snd].
  split; [reflexivity|]. split; [reflexivity|]. split.
  - apply Permutation_map, sorted_desc_perm.
  - apply rows_sorted; [|apply sorted_desc_sorted].
    eapply string_keys_perm; [symmetry; apply sorted_desc_perm|].
    rewrite perform_analysis_eq in Ha. injection Ha as <-.
    cbn [genre_count]. apply string_keys_counter_of.
Qed.

End Slots.

Lemma perform_analysis_shows_results_witness :
  exists a rows,
    perform_analysis Example.File
                     (get_audio_files "/music" Example.music) true
                     Example.taxonomy = Ok a
    /\ fst (UI.perform_analysis Example.File Demo.listdir Example.taxonomy
                                Demo.widgets)
       = UI.set_button
           (UI.set_table
              (UI.set_overlap Demo.widgets (UI.str_nat (overlap_count a)))
              rows)
           "Analyze" true
    /\ overlap_count a = 0
    /\ List.length rows = 1.
Proof.
  destruct (perform_analysis_shows_results
              Example.File Demo.listdir Example.taxonomy Demo.widgets
              (get_audio_files "/music" Example.music))
    as (a & rows & Ha & Hw & _ & P & _).
  - discriminate.
  - reflexivity.
  - discriminate.
  - exists a, rows. split; [exact Ha|]. split; [exact Hw|].
    vm_compute in Ha. injection Ha as <-. split; [reflexivity|].
    apply Permutation_length in P. exact P.
Defined.

Lemma dict_get_percentages (c : Counter_t) (total : nat) (key : pyval)
    (n : nat) (default : Q) :
  NoDup (map fst c) -> In (key, n) c ->
  UI.dict_get (percentages c total) key default = percentage n total.
Proof.
  induction c as [|[k m] c IH]; cbn [map fst]; intros N H; [destruct H|].
  inversion N as [|? ? Hk Hc]; subst.
  cbn [percentages map UI.dict_get]. destruct H as [E|H].
  - injection E as -> ->. now rewrite pyval_eqb_refl.
  - destruct (pyval_eqb k key) eqn:E; [|now apply IH].
    apply pyval_eqb_eq in E. subst k. exfalso. apply Hk.
    apply in_map_iff. now exists (key, n).
Qed.

(** Each genre of the analysis has its row in the table: the genre in
    title case, its count, and its own percentage of the total. *)
Theorem perform_analysis_rows_show_counts
    (File : string -> result (option FileType))
    (listdir : string -> result (option tree)) (simplified_keywords : Taxonomy)
    (w : UI.Widgets) (audio_files : list string) :
  PyStr.strip (UI.directory_text w) <> ""%string ->
  UI.discover listdir (PyStr.strip (UI.directory_text w)) = Ok audio_files ->
  audio_files <> [] ->
  exists a rows,
    perform_analysis File audio_files (UI.simple_checked w) simplified_keywords
    = Ok a
    /\ UI.table (fst (UI.perform_analysis File listdir simplified_keywords w))
       = Some rows
    /\ List.length rows = List.length (genre_count a)
    /\ forall genre n,
         In (PStr genre, n) (genre_count a) ->
         In {| UI.genre_cell := PyStr.title genre;
               UI.count_cell := UI.str_nat n;
               UI.percentage_value := percentage n (total_tracks a) |}
            rows.
Proof.
  intros Hne Hd Hf. apply truthy_nonempty in Hne.
  destruct (analysis_block_eq File simplified_keywords w audio_files)
    as (a & Ha & Hb).
  exists a. eexists. split; [exact Ha|].
  unfold UI.perform_analysis. rewrite Hne, Hd. cbn [negb].
  destruct audio_files as [|f l]; [congruence|]. rewrite Hb.
  cbn [fst UI.set_button UI.set_table UI.table].
  split; [reflexivity|]. split.
  - rewrite length_map. apply Permutation_length, sorted_desc_perm.
  - intros genre n Hin. apply in_map_iff. exists (PStr genre, n). split.
    + unfold row_of. cbn [fst snd key_text]. f_equal.
      rewrite perform_analysis_eq in Ha. injection Ha as <-.
      cbn [genre_percentage total_tracks genre_count] in *.
      apply dict_get_percentages; [|exact Hin].
      now destruct (counter_of_invariant
                      (map PStr (fst (if UI.simple_checked w
                                      then map_to_simplified_genres
                                             (flat_map (get_genre File) (f :: l))
                                             simplified_keywords
                                      else (flat_map (get_genre File) (f :: l),
                                            0))))
                      [] (NoDup_nil _) (Forall_nil _)) as (N & _).
    + eapply Permutation_in; [symmetry; apply sorted_desc_perm | exact Hin].
Qed.

Lemma perform_analysis_rows_show_counts_witness :
  exists rows,
    UI.table (fst (UI.perform_analysis Example.File Demo.listdir
                                       Example.taxonomy Demo.widgets))
    = Some rows
    /\ In {| UI.genre_cell := "Rock";
             UI.count_cell := "1";
             UI.percentage_value := percentage 1 1 |} rows.
Proof.
  destruct (perform_analysis_rows_show_counts
              Example.File Demo.listdir Example.taxonomy Demo.widgets
              (get_audio_files "/music" Example.music))
    as (a & rows & Ha & Ht & _ & R).
  - discriminate.
  - reflexivity.
  - discriminate.
  - exists rows. split; [exact Ht|].
    vm_compute in Ha. injection Ha as <-.
    exact (R "rock"%string 1 (or_introl eq_refl)).
Defined.

(** Files without any genre tag give an empty table, overlap 0 and a
    summary of 0 genres; no error is raised although the total, by
    which the percentages are divided, is 0. *)
Theorem perform_analysis_without_tags
    (File : string -> result (option FileType))
    (listdir : string -> result (option tree)) (simplified_keywords : Taxonomy)
    (w : UI.Widgets) (audio_files : list string) :
  PyStr.strip (UI.directory_text w) <> ""%string ->
  UI.discover listdir (PyStr.strip (UI.directory_text w)) = Ok audio_files ->
  audio_files <> [] ->
  (forall file, In file audio_files -> tag_text File file = None) ->
  UI.perform_analysis File listdir simplified_keywords w
  = (UI.set_button (UI.set_table (UI.set_overlap w "0") []) "Analyze" true,
     UI.summary (UI.simple_checked w) (List.length audio_files) 0 0).
Proof.
  intros Hne Hd Hf Hnone. apply truthy_nonempty in Hne.
  assert (G : flat_map (get_genre File) audio_files = []).
  { clear -Hnone. induction audio_files as [|f l IH]; [reflexivity|].
    cbn [flat_map]. rewrite get_genre_tag_text, (Hnone f (or_introl eq_refl)).
    apply IH. intros file Hin. apply Hnone. now right. }
  assert (O : calculate_overlap File audio_files = 0).
  { pose proof (overlap_le_entries File audio_files) as [H2 _].
    rewrite G in H2. cbn in H2. lia. }
  destruct (analysis_block_eq File simplified_keywords w audio_files)
    as (a & Ha & Hb).
  rewrite perform_analysis_eq in Ha. injection Ha as <-.
  cbn [genre_count genre_percentage overlap_count unmapped_count] in Hb.
  rewrite G, O in Hb.
  unfold UI.perform_analysis. rewrite Hne, Hd. cbn [negb].
  destruct audio_files as [|f l]; [congruence|]. rewrite Hb.
  now destruct (UI.simple_checked w).
Qed.

Lemma perform_analysis_without_tags_witness :
  UI.perform_analysis
    Example.File
    (fun _ => Ok (Some (Dir "music" ["/music/C.ogg"; "/music/notes.mp3"] [])))
    Example.taxonomy Demo.widgets
  = (UI.set_button (UI.set_table (UI.set_overlap Demo.widgets "0") [])
                   "Analyze" true,
     UI.summary true 2 0 0).
Proof.
  apply (perform_analysis_without_tags
           Example.File
           (fun _ => Ok (Some (Dir "music" ["/music/C.ogg"; "/music/notes.mp3"] [])))
           Example.taxonomy Demo.widgets
           ["/music/C.ogg"; "/music/notes.mp3"]).
  - discriminate.
  - reflexivity.
  - discriminate.
  - intros file [<-|[<-|[]]]; reflexivity.
Defined.

(* ------------------------------------------------------------------ *)
(** ** [main] with [smga_main_logic] *)

Section Startup.

Variable plugin_dir : string.
Variable env : ConfigEnv.
Variable ui : UI.UiEnv.
Variable parent_widget : option UI.Parent.

(** [main] hands back a plugin widget exactly when the taxonomy file
    exists and parses, the UI file exists, loads and defines the
    widgets that [smga_main_logic] uses, and a parent widget is given;
    with the parent [None], which is the default of [main], it raises
    [AttributeError] as soon as both files load. *)
Theorem main_returns_widget_iff :
  ((exists w,
       snd (main UI.Widgets (UI.smga_main_logic plugin_dir ui parent_widget)
                 plugin_dir env) = Ok (Some w))
   <-> path_exists env = true
       /\ (exists taxonomy, json_load env = Ok taxonomy)
       /\ UI.ui_exists ui = true
       /\ (exists loaded, UI.loadUi ui = Ok loaded)
       /\ parent_widget <> None
       /\ UI.has_complex_radio ui = true
       /\ UI.has_select_button ui = true
       /\ UI.has_analyze_button ui = true)
  /\ (path_exists env = true ->
      (exists taxonomy, json_load env = Ok taxonomy) ->
      UI.ui_exists ui = true ->
      (exists loaded, UI.loadUi ui = Ok loaded) ->
      snd (main UI.Widgets (UI.smga_main_logic plugin_dir ui None)
                plugin_dir env)
      = Raise (AttributeError "'NoneType' object has no attribute 'layout'")).
Proof.
  unfold main, load_simplified_genres, UI.smga_main_logic. split.
  - split.
    + intros [w H]. destruct (path_exists env); [|discriminate H].
      cbn [negb] in H. destruct (json_load env) as [t|e].
      * destruct (UI.ui_exists ui); [|discriminate H]. cbn [negb] in H.
        destruct (UI.loadUi ui) as [loaded|e]; [|discriminate H].
        destruct parent_widget as [parent|]; [|discriminate H].
        destruct (UI.has_complex_radio ui); [|discriminate H].
        destruct (UI.has_select_button ui), (UI.has_analyze_button ui);
          try discriminate H.
        repeat split; eauto. discriminate.
      * destruct e; discriminate H.
    + intros (-> & [t ->] & -> & [loaded ->] & Hp & -> & -> & ->).
      destruct parent_widget as [parent|]; [|congruence].
      cbn. eexists. reflexivity.
  - intros -> [t ->] -> [loaded ->]. reflexivity.
Qed.

(** Whenever [main] returns [None], it has logged an error and shown
    it in a critical message box, as its last two actions. *)
Theorem main_none_is_reported :
  snd (main UI.Widgets (UI.smga_main_logic plugin_dir ui parent_widget)
            plugin_dir env)
  = Ok None ->
  exists before msg,
    fst (main UI.Widgets (UI.smga_main_logic plugin_dir ui parent_widget)
              plugin_dir env)
    = before ++ [LogError msg; MessageBoxCritical "Error" msg].
Proof.
  unfold main, load_simplified_genres, UI.smga_main_logic.
  destruct (path_exists env); cbn [negb].
  - destruct (json_load env) as [t|[]]; cbn [snd fst]; try discriminate.
    + destruct (UI.ui_exists ui); cbn [negb snd fst].
      * destruct (UI.loadUi ui) as [loaded|e]; cbn [snd]; [|discriminate].
        destruct parent_widget as [parent|]; cbn [snd]; [|discriminate].
        destruct (UI.has_complex_radio ui); cbn [negb snd]; [|discriminate].
        destruct (UI.has_select_button ui && UI.has_analyze_button ui);
          cbn [negb snd]; discriminate.
      * intros _. exists [LogInfo "SMGA Plugin initialized.";
                          LogInfo "Initializing SMGA UI..."].
        eexists. reflexivity.
    + intros _. exists [LogInfo "SMGA Plugin initialized."].
      eexists. reflexivity.
  - intros _. exists [LogInfo "SMGA Plugin initialized."].
    eexists. reflexivity.
Qed.

End Startup.

Lemma main_returns_widget_iff_witness :
  (exists w,
      snd (main UI.Widgets
                (UI.smga_main_logic "/plugins/SMGA" Demo.ui_env
                                    (Some Demo.parent))
                "/plugins/SMGA" Example.wellformed) = Ok (Some w))
  /\ snd (main UI.Widgets
               (UI.smga_main_logic "/plugins/SMGA" Demo.ui_env None)
               "/plugins/SMGA" Example.wellformed)
     = Raise (AttributeError "'NoneType' object has no attribute 'layout'").
Proof.
  split.
  - apply (proj2 (proj1 (main_returns_widget_iff
                           "/plugins/SMGA" Example.wellformed Demo.ui_env
                           (Some Demo.parent)))).
    split; [reflexivity|]. split; [now exists Example.taxonomy|].
    split; [reflexivity|]. split; [now exists Demo.widgets|].
    split; [discriminate|]. repeat split.
  - apply (proj2 (main_returns_widget_iff
                    "/plugins/SMGA" Example.wellformed Demo.ui_env None)).
    + reflexivity.
    + now exists Example.taxonomy.
    + reflexivity.
    + now exists Demo.widgets.
Defined.

Lemma main_none_is_reported_witness :
  exists before msg,
    fst (main UI.Widgets
              (UI.smga_main_logic
                 "/plugins/SMGA"
                 {| UI.ui_exists := false;
                    UI.loadUi := Ok Demo.widgets;
                    UI.has_complex_radio := true;
                    UI.has_select_button := true;
                    UI.has_analyze_button := true;
                    UI.radios_exclusive := true |}
                 (Some Demo.parent))
              "/plugins/SMGA" Example.wellformed)
    = before ++ [LogError msg; MessageBoxCritical "Error" msg].
Proof.
  apply main_none_is_reported. reflexivity.
Defined.
